(** * Price comparison tool: extraction cascade, fetch client, comparison engine

    Shallow embedding of [streamlit_app.py] and the properties its
    specification states about it.

    Modelling conventions.
    - A Python [str] is a Rocq [string] whose characters are the code points
      0..255.  In that range the regular-expression class [\d] is exactly
      ['0'..'9'] and [str.strip()] removes exactly the characters of
      [is_space].
    - A Python [float] holding a price is an exact rational ([Q], kept in
      lowest terms).  Binary rounding is not modelled: [float("19.99")] is
      the rational 1999/100.
    - [parse_price] is also given over any character set, digit class and
      [float] conversion ([parse_price_over]), of which the two conventions
      above are one instance: what is proved of it holds for the full
      range of [str] and for the rounded values of [float].
    - A Python exception is a value of [exn]; a computation that may raise
      has a result of type [Res].
    - [BeautifulSoup(html, 'html.parser')] is represented by the tree it
      builds: the document handed to [extract_price] is its root [node].
    - The network, [random.choice] and the progress bar live in a [World]
      that is threaded through [fetch_price] and [compare_prices].
    - The literals of the report are kept as written; the euro sign stands
      in them as its UTF-8 bytes. *)

From Stdlib Require Import NArith ZArith QArith Qround Qabs List String Ascii Bool Lia Lqa.
From Stdlib Require Import Decimal DecimalString DecimalPos.
Import ListNotations.

Set Warnings "-register-all".

Local Close Scope Q_scope.

Local Open Scope list_scope.
Local Open Scope string_scope.

(* ================================================================== *)
(** ** Python values, exceptions and results *)

(** The exception classes the program can meet.  [HTTPError],
    [ConnectionError], [RequestTimeout] (the class [Timeout]) and
    [OtherRequestException] are the
    subclasses of [requests.exceptions.RequestException]. *)
Inductive exn : Type :=
| TypeError (msg : string)
| IndexError (msg : string)
| KeyError (msg : string)
| ZeroDivisionError (msg : string)
| JSONDecodeError (msg : string)
| HTTPError (status_code : nat) (msg : string)
| ConnectionError (msg : string)
| RequestTimeout (msg : string)
| OtherRequestException (msg : string).

(** [str(e)] *)
Definition exn_str (e : exn) : string :=
  match e with
  | TypeError m | IndexError m | KeyError m | ZeroDivisionError m
  | JSONDecodeError m | HTTPError _ m | ConnectionError m | RequestTimeout m
  | OtherRequestException m => m
  end.

(** [isinstance(e, requests.exceptions.RequestException)] *)
Definition is_request_exception (e : exn) : bool :=
  match e with
  | HTTPError _ _ | ConnectionError _ | RequestTimeout _
  | OtherRequestException _ => true
  | _ => false
  end.

Inductive Res (A : Type) : Type :=
| Return (a : A)
| Raise (e : exn).
Arguments Return {A} a.
Arguments Raise {A} e.

Definition bindR {A B} (m : Res A) (k : A -> Res B) : Res B :=
  match m with
  | Return a => k a
  | Raise e => Raise e
  end.

(** The Python values that reach the extraction code: the result of
    [json.loads] and the result of [Tag.get]. *)
Inductive pyval : Type :=
| PyNone
| PyBool (b : bool)
| PyNum (q : Q)
| PyStr (s : string)
| PyList (l : list pyval)
| PyDict (items : list (string * pyval)).

(* ================================================================== *)
(** ** Characters and strings *)

Definition code (c : ascii) : N := N_of_ascii c.

(** [\d] on code points below 256 *)
Definition is_digit (c : ascii) : bool :=
  ((48 <=? code c) && (code c <=? 57))%N.

Definition comma : ascii := ","%char.
Definition period : ascii := "."%char.

(** The complement of the class [[^\d,.]]: the characters [re.sub] keeps. *)
Definition is_price_char (c : ascii) : bool :=
  is_digit c || Ascii.eqb c comma || Ascii.eqb c period.

(** [str.isspace] on code points below 256 *)
Definition is_space (c : ascii) : bool :=
  (((9 <=? code c) && (code c <=? 13)) ||
   ((28 <=? code c) && (code c <=? 32)) ||
   (code c =? 133) || (code c =? 160))%N.

(** [re.sub(r'[^\d,.]', '', s)] *)
Fixpoint re_sub_non_price (s : string) : string :=
  match s with
  | EmptyString => EmptyString
  | String c r =>
      if is_price_char c then String c (re_sub_non_price r)
      else re_sub_non_price r
  end.

(** [s.replace(',', '.')] *)
Fixpoint replace_comma (s : string) : string :=
  match s with
  | EmptyString => EmptyString
  | String c r =>
      String (if Ascii.eqb c comma then period else c) (replace_comma r)
  end.

Fixpoint lstrip (s : string) : string :=
  match s with
  | EmptyString => EmptyString
  | String c r => if is_space c then lstrip r else s
  end.

Fixpoint rstrip (s : string) : string :=
  match s with
  | EmptyString => EmptyString
  | String c r =>
      match rstrip r with
      | EmptyString => if is_space c then EmptyString else String c EmptyString
      | r' => String c r'
      end
  end.

(** [s.strip()] *)
Definition strip (s : string) : string := rstrip (lstrip s).

(** [needle in haystack] for two strings *)
Fixpoint str_contains (haystack needle : string) : bool :=
  String.prefix needle haystack ||
  match haystack with
  | EmptyString => false
  | String _ r => str_contains r needle
  end.

(** Decimal rendering of a natural number, [str(n)]. *)
Definition str_of_nat (n : nat) : string :=
  NilZero.string_of_uint (Nat.to_uint n).

(* ================================================================== *)
(** ** Numeric normalizer: [parse_price] *)

Definition digit_value (c : ascii) : N := (code c - 48)%N.

Fixpoint all_digits (s : string) : bool :=
  match s with
  | EmptyString => true
  | String c r => is_digit c && all_digits r
  end.

Fixpoint digits_value (acc : N) (s : string) : N :=
  match s with
  | EmptyString => acc
  | String c r => digits_value (10 * acc + digit_value c)%N r
  end.

(** Splits at the first period: the part before it and, when there is a
    period, the part after it. *)
Fixpoint split_period (s : string) : string * option string :=
  match s with
  | EmptyString => (EmptyString, None)
  | String c r =>
      if Ascii.eqb c period then (EmptyString, Some r)
      else let (a, b) := split_period r in (String c a, b)
  end.

(** [float(s)] for a string over digits and periods, the only strings
    [parse_price] hands to it; [None] stands for [ValueError].  Python
    accepts [digits], [digits.], [.digits] and [digits.digits], and
    rejects the empty string, a lone period and a second period.  The
    value is the number the numeral denotes; Python rounds it to the
    nearest binary64 number, so the two agree where that number is a
    binary64 number itself. *)
Definition py_float (s : string) : option Q :=
  let (ip, rest) := split_period s in
  let fp := match rest with Some f => f | None => EmptyString end in
  if all_digits ip && all_digits fp
     && negb (Nat.eqb (String.length ip + String.length fp) 0)
  then Some (Qred (Z.of_N (digits_value 0 (ip ++ fp))
                   # Z.to_pos (10 ^ Z.of_nat (String.length fp)))%Q)
  else None.

(** The threshold [1.01]. *)
Definition min_price : Q := (101 # 100)%Q.

(** [parse_price] on a [str] argument. *)
Definition parse_price_str (price_str : string) : option Q :=
  let price_str := re_sub_non_price price_str in
  let price_str := replace_comma price_str in
  match py_float price_str with
  | Some price => if Qle_bool min_price price then Some price else None
  | None => None
  end.

(** [parse_price]: [re.sub] raises [TypeError] on anything but a string
    ([None] from a missing attribute, a JSON number, ...).  The message
    is the one of Python up to 3.10; later versions append the type of
    the argument. *)
Definition parse_price (price_str : pyval) : Res (option Q) :=
  match price_str with
  | PyStr s => Return (parse_price_str s)
  | _ => Raise (TypeError "expected string or bytes-like object")
  end.

(** [parse_price] over the library's own notions: any type of
    characters with its equality, the class [\d], the comma and the
    period, the conversion [float] of a character sequence ([None]
    stands for [ValueError]) and the test [price >= 1.01]. *)
Section Normalizer.

Variables char float : Type.
Variable char_eqb : char -> char -> bool.
Variable is_decimal : char -> bool.
Variables comma_char period_char : char.
Variable float_of : list char -> option float.
Variable at_least_min : float -> bool.

(** [re.sub(r'[^\d,.]', '', s)] *)
Fixpoint re_sub_over (s : list char) : list char :=
  match s with
  | [] => []
  | c :: r =>
      if is_decimal c || char_eqb c comma_char || char_eqb c period_char
      then c :: re_sub_over r
      else re_sub_over r
  end.

(** [s.replace(',', '.')] *)
Fixpoint replace_over (s : list char) : list char :=
  match s with
  | [] => []
  | c :: r =>
      (if char_eqb c comma_char then period_char else c) :: replace_over r
  end.

Definition parse_price_over (price_str : list char) : option float :=
  let price_str := re_sub_over price_str in
  let price_str := replace_over price_str in
  match float_of price_str with
  | Some price => if at_least_min price then Some price else None
  | None => None
  end.

End Normalizer.

Arguments re_sub_over {char}.
Arguments replace_over {char}.
Arguments parse_price_over {char float}.

(** The ten digits. *)
Definition digit_chars : list ascii :=
  ["0"; "1"; "2"; "3"; "4"; "5"; "6"; "7"; "8"; "9"]%char.

(** The number a decimal numeral denotes, integer part [ui] and fraction
    part [uf], through the numerals of the standard library. *)
Definition numeral_value (ui uf : uint) : Q :=
  (inject_Z (Z.of_N (N.of_uint ui))
   + (Z.of_N (N.of_uint uf) # Z.to_pos (10 ^ Z.of_nat (nb_digits uf))))%Q.

(** The non-negative numbers of the binary64 format: a significand of at
    most 53 bits at an exponent of the format. *)
Definition binary64 (q : Q) : Prop :=
  exists m e : Z,
    (0 <= m < 2 ^ 53)%Z /\ (-1074 <= e <= 971)%Z
    /\ (q == inject_Z m * Qpower 2 e)%Q.

(* ================================================================== *)
(** ** The parsed document *)

(** What [html.parser] builds: text nodes and tags.  A tag carries its
    name, its attribute dictionary and its children.  The [BeautifulSoup]
    object itself is the root tag, named [[document]]. *)
Inductive node : Type :=
| Text (s : string)
| Tag (name : string) (attrs : list (string * string)) (children : list node).

Definition is_tag (n : node) : bool :=
  match n with Tag _ _ _ => true | Text _ => false end.

Fixpoint attr_get (attrs : list (string * string)) (key : string)
  : option string :=
  match attrs with
  | [] => None
  | (k, v) :: r => if String.eqb k key then Some v else attr_get r key
  end.

(** [tag.get(key)]: the attribute value, or Python's [None]. *)
Definition tag_get (n : node) (key : string) : pyval :=
  match n with
  | Tag _ attrs _ =>
      match attr_get attrs key with
      | Some v => PyStr v
      | None => PyNone
      end
  | Text _ => PyNone
  end.

(** [tag.text]: the text nodes below the tag, concatenated in document
    order.  Comments are not part of the model.  The text of a script or
    style element is an ordinary text node here: recent versions of the
    library leave such text out of the [text] of an enclosing element,
    so the model follows them on elements that enclose no script, style
    or template element. *)
Fixpoint node_text (n : node) : string :=
  match n with
  | Text s => s
  | Tag _ _ children =>
      (fix go (l : list node) : string :=
         match l with
         | [] => EmptyString
         | c :: r => node_text c ++ go r
         end) children
  end.

(** [tag.string]: defined only through a chain of single children that
    ends in a text node. *)
Fixpoint node_string (n : node) : option string :=
  match n with
  | Text s => Some s
  | Tag _ _ [c] => node_string c
  | Tag _ _ _ => None
  end.

(** Whitespace-separated tokens of an attribute value; [split_ws] returns
    the token that starts at the head of the string (empty when there is
    none) and the tokens after it. *)
Fixpoint split_ws (s : string) : string * list string :=
  match s with
  | EmptyString => (EmptyString, [])
  | String c r =>
      let (t, ts) := split_ws r in
      if is_space c
      then (EmptyString, match t with EmptyString => ts | _ => t :: ts end)
      else (String c t, ts)
  end.

Definition class_tokens (s : string) : list string :=
  let (t, ts) := split_ws s in
  match t with EmptyString => ts | _ => t :: ts end.

(** A search criterion of [find]: it looks at a tag's name and
    attributes only. *)
Definition matcher := string -> list (string * string) -> bool.

(** [find(name, {key: value})] *)
Definition by_name_attr (name key value : string) : matcher :=
  fun n attrs =>
    String.eqb n name &&
    match attr_get attrs key with
    | Some v => String.eqb v value
    | None => false
    end.

(** [find(name)] *)
Definition by_name (name : string) : matcher :=
  fun n _ => String.eqb n name.

(** [find(class_=c)]: [class] is a multi-valued attribute, matched token
    by token. *)
Definition by_class (c : string) : matcher :=
  fun _ attrs =>
    match attr_get attrs "class" with
    | Some v => existsb (String.eqb c) (class_tokens v)
    | None => false
    end.

Definition matches (p : matcher) (n : node) : bool :=
  match n with
  | Tag name attrs _ => p name attrs
  | Text _ => false
  end.

(** The first descendant of [n], in document order, that satisfies [p],
    together with the siblings that follow it. *)
Fixpoint find_with_siblings (p : matcher) (n : node)
  : option (node * list node) :=
  match n with
  | Text _ => None
  | Tag _ _ children =>
      (fix go (l : list node) : option (node * list node) :=
         match l with
         | [] => None
         | c :: r =>
             if matches p c then Some (c, r)
             else match find_with_siblings p c with
                  | Some x => Some x
                  | None => go r
                  end
         end) children
  end.

(** [soup.find(...)] *)
Definition find (p : matcher) (soup : node) : option node :=
  option_map fst (find_with_siblings p soup).

(** [tag.find_next_siblings()]: the tags among the following siblings. *)
Definition find_next_siblings (following : list node) : list node :=
  filter is_tag following.

(* ================================================================== *)
(** ** Heuristic extractor: [find_price_in_html] *)

(** [extract_price_from_element]; the argument of [parse_price] is a
    [str] here, so no [TypeError] can arise. *)
Definition extract_price_from_element (element : node) : option Q :=
  parse_price_str (strip (node_text element)).

(** Truth value of [price] in [if price:]. *)
Definition truthy (price : option Q) : bool :=
  match price with
  | Some p => negb (Qeq_bool p 0%Q)
  | None => false
  end.

Definition price_classes : list string :=
  ["price"; "product-price"; "regular-price"; "sales-price";
   "current-price"; "woocommerce-Price-amount"].

(** The loop over the siblings of the heading; [None] when it runs to
    its end. *)
Fixpoint sibling_loop (siblings : list node) : option Q :=
  match siblings with
  | [] => None
  | sibling :: r =>
      let price := extract_price_from_element sibling in
      if truthy price then price else sibling_loop r
  end.

(** The loop over the class names; [None] when it runs to its end. *)
Fixpoint class_loop (soup : node) (classes : list string) : option Q :=
  match classes with
  | [] => None
  | class_name :: r =>
      match find (by_class class_name) soup with
      | Some price_elem =>
          let price := extract_price_from_element price_elem in
          if truthy price then price else class_loop soup r
      | None => class_loop soup r
      end
  end.

Definition find_price_in_html (soup : node) : option Q :=
  let near_h1 :=
    match find_with_siblings (by_name "h1") soup with
    | Some (_, following) =>
        sibling_loop (firstn 5 (find_next_siblings following))
    | None => None
    end in
  match near_h1 with
  | Some price => Some price
  | None => class_loop soup price_classes
  end.

(* ================================================================== *)
(** ** Extraction cascade: [extract_price] *)

Declare Scope res_scope.
Notation "x <- m ;; k" := (bindR m (fun x => k))
  (at level 61, m at next level, right associativity) : res_scope.
Local Open Scope res_scope.

(** [needle in container], with [needle] a string. *)
Definition py_contains (needle : string) (container : pyval) : Res bool :=
  match container with
  | PyDict items =>
      Return (existsb (fun kv => String.eqb (fst kv) needle) items)
  | PyList l =>
      Return (existsb (fun v => match v with
                                | PyStr s => String.eqb s needle
                                | _ => false
                                end) l)
  | PyStr s => Return (str_contains s needle)
  | PyNone | PyBool _ | PyNum _ =>
      Raise (TypeError "argument is not iterable")
  end.

Fixpoint dict_get (items : list (string * pyval)) (key : string)
  : option pyval :=
  match items with
  | [] => None
  | (k, v) :: r => if String.eqb k key then Some v else dict_get r key
  end.

(** [container[key]], with [key] a string. *)
Definition py_getitem (container : pyval) (key : string) : Res pyval :=
  match container with
  | PyDict items =>
      match dict_get items key with
      | Some v => Return v
      | None => Raise (KeyError key)
      end
  | PyList _ | PyStr _ =>
      Raise (TypeError "indices must be integers or slices, not str")
  | PyNone | PyBool _ | PyNum _ =>
      Raise (TypeError "object is not subscriptable")
  end.

(** [data[0]] for a list [data]. *)
Definition py_first (l : list pyval) : Res pyval :=
  match l with
  | d :: _ => Return d
  | [] => Raise (IndexError "list index out of range")
  end.

(** The statement
    [if "offers" in data and "price" in data["offers"]:
         return parse_price(data["offers"]["price"])]:
    [Some r] when it returns [r], [None] when the condition is false. *)
Definition offers_price_stmt (data : pyval) : Res (option (option Q)) :=
  has_offers <- py_contains "offers" data ;;
  if (has_offers : bool) then
    offers <- py_getitem data "offers" ;;
    has_price <- py_contains "price" offers ;;
    if (has_price : bool) then
      offers <- py_getitem data "offers" ;;
      price <- py_getitem offers "price" ;;
      r <- parse_price price ;;
      Return (Some r)
    else Return None
  else Return None.

Definition meta_tags : list (string * (string * string)) :=
  [("meta", ("name", "twitter:data1"));
   ("meta", ("property", "og:price:amount"));
   ("meta", ("property", "product:price:amount"))].

Section Extraction.

(** [json.loads] on a string; [None] stands for [JSONDecodeError].  The
    parser belongs to the Python library and is kept abstract. *)
Variable json_loads : string -> option pyval.

(** [json.loads(x)] where [x] is [json_ld.string], possibly [None]. *)
Definition json_loads_py (x : option string) : Res pyval :=
  match x with
  | None =>
      Raise (TypeError
               "the JSON object must be str, bytes or bytearray, not NoneType")
  | Some s =>
      match json_loads s with
      | Some data => Return data
      | None => Raise (JSONDecodeError "Expecting value")
      end
  end.

(** The loop over [meta_tags]: [Some r] when the function returns [r]
    from inside the loop, [None] when the loop runs to its end.  A tag
    object is always true in [if meta_price:]. *)
Fixpoint meta_loop (soup : node) (tags : list (string * (string * string)))
  : option (Res (option Q)) :=
  match tags with
  | [] => None
  | (tag, (key, value)) :: r =>
      match find (by_name_attr tag key value) soup with
      | Some meta_price => Some (parse_price (tag_get meta_price "content"))
      | None => meta_loop soup r
      end
  end.

(** The body of the [try] block of step 3: [Some r] when it returns [r],
    [None] when control leaves the block at its end. *)
Definition json_ld_try (json_ld : node) : Res (option (option Q)) :=
  data <- json_loads_py (node_string json_ld) ;;
  data <- match data with
          | PyList l => py_first l
          | _ => Return data
          end ;;
  offers_price_stmt data.

Definition extract_price (soup : node) (url : string) : Res (option Q) :=
  (* 1. Check meta tags *)
  match meta_loop soup meta_tags with
  | Some r => r
  | None =>
      (* 2. Check Schema.org microdata *)
      match find (by_name_attr "span" "itemprop" "price") soup with
      | Some schema_price => parse_price (PyStr (node_text schema_price))
      | None =>
          (* 3. Check JSON-LD *)
          match find (by_name_attr "script" "type" "application/ld+json")
                     soup with
          | Some json_ld =>
              match json_ld_try json_ld with
              | Return (Some r) => Return r
              | Return None => Return (find_price_in_html soup)
              | Raise (JSONDecodeError _) =>
                  Return (find_price_in_html soup)
              | Raise e => Raise e
              end
          | None =>
              (* 4. Fallback to HTML structure *)
              Return (find_price_in_html soup)
          end
      end
  end.

End Extraction.

(* ================================================================== *)
(** ** The world: network, randomness, progress bar *)

Definition headers := list (string * string).

Record request : Type := mkRequest {
  req_url : string;
  req_headers : headers;
  req_timeout : nat
}.

Record response : Type := mkResponse {
  status_code : nat;
  reason : string;
  resp_url : string;
  (** [response.text], given by the tree the parser builds from it *)
  text : node
}.

(** The failures [requests.get] itself reports: DNS failure and refused
    connection ([ConnectionError]), timeouts, and the remaining
    subclasses of [RequestException] (invalid URL, too many redirects). *)
Inductive transport_error : Type :=
| ConnectionFailed (msg : string)
| TimedOut (msg : string)
| OtherTransport (msg : string).

Definition exn_of_transport (t : transport_error) : exn :=
  match t with
  | ConnectionFailed m => ConnectionError m
  | TimedOut m => RequestTimeout m
  | OtherTransport m => OtherRequestException m
  end.

Inductive get_result : Type :=
| GetResponse (r : response)
| GetRaise (t : transport_error).

Inductive event : Type :=
| EvGet (r : request)
| EvProgress (v : Q).

Record World : Type := mkWorld {
  (** what the network answers to the [k]-th GET of the run *)
  net : nat -> request -> get_result;
  (** the index the [k]-th call of [random.choice] draws *)
  rnd : nat -> nat;
  gets : nat;
  draws : nat;
  (** what has happened so far, oldest first *)
  trace : list event
}.

(** Computations that use the world and may raise. *)
Definition M (A : Type) : Type := World -> Res A * World.

(** The world after the event [ev]; [log (EvProgress v)] is
    [progress_bar.progress(v)]. *)
Definition log (ev : event) (w : World) : World :=
  mkWorld (net w) (rnd w) (gets w) (draws w) (trace w ++ [ev])%list.

(** The result of a GET as Python sees it: a response object, or the
    exception of the transport failure. *)
Definition res_of_get (g : get_result) : Res response :=
  match g with
  | GetResponse r => Return r
  | GetRaise t => Raise (exn_of_transport t)
  end.

(** The world after the request [q] has been sent. *)
Definition sent (q : request) (w : World) : World :=
  mkWorld (net w) (rnd w) (S (gets w)) (draws w) (trace w ++ [EvGet q])%list.

(** The world after one call of [random.choice]. *)
Definition drew (w : World) : World :=
  mkWorld (net w) (rnd w) (gets w) (S (draws w)) (trace w).

(** [requests.get(url, headers=..., timeout=...)] *)
Definition requests_get (url : string) (hs : headers) (timeout : nat)
  : M response :=
  fun w =>
    let req := mkRequest url hs timeout in
    (res_of_get (net w (gets w) req), sent req w).

(** [response.raise_for_status()] *)
Definition raise_for_status (r : response) : Res unit :=
  let sc := status_code r in
  if ((400 <=? sc) && (sc <? 500))%nat then
    Raise (HTTPError sc (str_of_nat sc ++ " Client Error: " ++ reason r
                         ++ " for url: " ++ resp_url r))
  else if ((500 <=? sc) && (sc <? 600))%nat then
    Raise (HTTPError sc (str_of_nat sc ++ " Server Error: " ++ reason r
                         ++ " for url: " ++ resp_url r))
  else Return tt.

(* ================================================================== *)
(** ** Fetch client: [get_random_headers], [fetch_price] *)

Definition user_agents : list string :=
  ["Mozilla/5.0 (Windows NT 10.0; Win64; x64) AppleWebKit/537.36 (KHTML, like Gecko) Chrome/91.0.4472.124 Safari/537.36";
   "Mozilla/5.0 (Windows NT 10.0; Win64; x64; rv:89.0) Gecko/20100101 Firefox/89.0";
   "Mozilla/5.0 (Macintosh; Intel Mac OS X 10_15_7) AppleWebKit/605.1.15 (KHTML, like Gecko) Version/14.1.1 Safari/605.1.15"].

(** The header set built around a given User-Agent. *)
Definition full_headers (user_agent : string) : headers :=
  [("User-Agent", user_agent);
   ("Accept", "text/html,application/xhtml+xml,application/xml;q=0.9,image/webp,*/*;q=0.8");
   ("Accept-Language", "en-US,en;q=0.5");
   ("Referer", "https://www.google.com/");
   ("DNT", "1");
   ("Connection", "keep-alive");
   ("Upgrade-Insecure-Requests", "1")].

(** [random.choice(user_agents)] *)
Definition random_choice (l : list string) : M string :=
  fun w =>
    (Return (nth (rnd w (draws w) mod List.length l) l EmptyString), drew w).

Definition get_random_headers : M headers :=
  fun w =>
    match random_choice user_agents w with
    | (Return ua, w') => (Return (full_headers ua), w')
    | (Raise e, w') => (Raise e, w')
    end.

Definition baseline_headers : headers :=
  [("User-Agent", "Mozilla/5.0 (Windows NT 10.0; Win64; x64) AppleWebKit/537.36 (KHTML, like Gecko) Chrome/91.0.4472.124 Safari/537.36")].

Definition not_found_msg : string :=
  "Price not found on the page or below 1.01 euro".

Definition outcome : Type := option Q * option string.

Record Product : Type := mkProduct {
  url : string;
  competitors : list string;
  last_updated : Z
}.

Definition price_list : Type := list (string * option Q).
Definition error_list : Type := list (string * option string).

(** [a / b] for two non-negative integers with [b] positive, as it occurs
    in [compare_prices], where [b] is [total_urls]. *)
Definition int_div (a b : nat) : Q := (Z.of_nat a # Pos.of_nat b)%Q.

Section Fetch.

Variable json_loads : string -> option pyval.

(** The three statements both [try] blocks share after the GET:
    [raise_for_status], [extract_price], and the two [return]s. *)
Definition after_get (url : string) (got : Res response) : Res outcome :=
  response <- got ;;
  _ <- raise_for_status response ;;
  price <- extract_price json_loads (text response) url ;;
  match price with
  | None => Return (None, Some not_found_msg)
  | Some p => Return (Some p, None)
  end.

Definition fetch_price (url : string) : M outcome :=
  fun w =>
    let (got, w1) := requests_get url baseline_headers 10 w in
    match after_get url got with
    | Return out => (Return out, w1)
    | Raise (HTTPError status msg) =>
        (* except requests.exceptions.HTTPError as e *)
        if (status =? 403)%nat then
          match get_random_headers w1 with
          | (Raise e, w2) => (Raise e, w2)
          | (Return hs, w2) =>
              let (got2, w3) := requests_get url hs 10 w2 in
              match after_get url got2 with
              | Return out => (Return out, w3)
              | Raise e =>
                  (* except requests.exceptions.RequestException as e;
                     any other exception leaves the handler *)
                  if is_request_exception e then
                    (Return (None,
                             Some ("Error fetching URL (with bypass): "
                                   ++ exn_str e)), w3)
                  else (Raise e, w3)
              end
          end
        else
          (Return (None, Some ("Error fetching URL: " ++ msg)), w1)
    | Raise e =>
        (* except Exception as e *)
        (Return (None, Some ("Unexpected error: " ++ exn_str e)), w1)
    end.

(* ================================================================ *)
(** ** Comparison engine: [compare_prices] *)

(** The [for i, comp_url in enumerate(product.competitors)] loop, from
    index [i] on. *)
Fixpoint competitor_loop (total_urls i : nat) (comps : list string)
         (results : price_list) (errors : error_list)
  : M (price_list * error_list) :=
  fun w =>
    match comps with
    | [] => (Return (results, errors), w)
    | comp_url :: rest =>
        match fetch_price comp_url w with
        | (Raise e, w1) => (Raise e, w1)
        | (Return (comp_price, comp_error), w1) =>
            let results := (results ++ [(comp_url, comp_price)])%list in
            let errors := (errors ++ [(comp_url, comp_error)])%list in
            let w2 := log (EvProgress (int_div (i + 2) total_urls)) w1 in
            competitor_loop total_urls (S i) rest results errors w2
        end
    end.

Definition compare_prices (product : Product)
  : M (price_list * error_list) :=
  fun w =>
    let total_urls := List.length (competitors product) + 1 in
    (* Fetch product price *)
    let w0 := log (EvProgress 0%Q) w in
    match fetch_price (url product) w0 with
    | (Raise e, w1) => (Raise e, w1)
    | (Return (own_price, own_error), w1) =>
        let results := [(url product, own_price)] in
        let errors := [(url product, own_error)] in
        let w2 := log (EvProgress (int_div 1 total_urls)) w1 in
        (* Fetch competitor prices *)
        match competitor_loop total_urls 0 (competitors product)
                              results errors w2 with
        | (Raise e, w3) => (Raise e, w3)
        | (Return (results, errors), w3) =>
            (Return (results, errors), log (EvProgress 1%Q) w3)
        end
    end.

End Fetch.

(* ================================================================== *)
(** ** Analysis: [analyze_results] *)

(** The newline character of the Python literals. *)
Definition nl : string := String (ascii_of_nat 10) EmptyString.

(** [f"{e}"] for an optional string. *)
Definition str_opt (e : option string) : string :=
  match e with
  | Some s => s
  | None => "None"
  end.

Definition Qlt_bool (a b : Q) : bool := negb (Qle_bool b a).

(** Nearest integer, ties to even. *)
Definition round_half_even (q : Q) : Z :=
  let n := Qnum q in
  let d := Zpos (Qden q) in
  let fl := (n / d)%Z in
  let r2 := (2 * (n mod d))%Z in
  if (r2 <? d)%Z then fl
  else if (d <? r2)%Z then (fl + 1)%Z
  else if Z.even fl then fl else (fl + 1)%Z.

Definition pad2 (n : nat) : string :=
  if (n <? 10)%nat then "0" ++ str_of_nat n else str_of_nat n.

(** [f"{q:.2f}"]: the exact rational rounded to two decimals.  The sign
    of a value that rounds to zero is not rendered.  The percentage it
    renders is computed exactly here, where Python rounds after each
    operation, so its last digit can differ from Python's when the exact
    value lies next to a rounding boundary. *)
Definition fmt_2f (q : Q) : string :=
  let c := round_half_even (q * 100)%Q in
  let a := Z.abs c in
  (if (c <? 0)%Z then "-" else "")
  ++ str_of_nat (Z.to_nat (a / 100)) ++ "." ++ pad2 (Z.to_nat (a mod 100)).

Definition has_price (entry : string * option Q) : bool :=
  match snd entry with
  | Some _ => true
  | None => false
  end.

(** The loop [for i, (comp_url, comp_price) in enumerate(competitor_prices)]
    from index [i] on, threading [analysis], [cheaper_count] and
    [equal_count]. *)
Fixpoint analysis_loop (own_price : Q) (errors : error_list) (i : nat)
         (competitor_prices : price_list)
         (analysis : string) (cheaper_count equal_count : nat)
  : Res (string * nat * nat) :=
  match competitor_prices with
  | [] => Return (analysis, cheaper_count, equal_count)
  | (comp_url, None) :: rest =>
      match nth_error errors (i + 1) with
      | None => Raise (IndexError "list index out of range")
      | Some (_, comp_error) =>
          analysis_loop own_price errors (S i) rest
            (analysis ++ "Competitor " ++ str_of_nat (i + 1)
             ++ ": Unable to fetch price" ++ nl
             ++ "Error: " ++ str_opt comp_error ++ nl)
            cheaper_count equal_count
      end
  | (comp_url, Some comp_price) :: rest =>
      let price_diff := (own_price - comp_price)%Q in
      if Qeq_bool comp_price 0%Q then
        Raise (ZeroDivisionError "float division by zero")
      else
        let percentage_diff := ((price_diff / comp_price) * 100)%Q in
        if Qlt_bool 0%Q price_diff then
          analysis_loop own_price errors (S i) rest
            (analysis ++ "Competitor " ++ str_of_nat (i + 1)
             ++ ": :red[€" ++ fmt_2f comp_price ++ " (You are "
             ++ fmt_2f percentage_diff ++ "% more expensive)]" ++ nl)
            cheaper_count equal_count
        else if Qlt_bool price_diff 0%Q then
          analysis_loop own_price errors (S i) rest
            (analysis ++ "Competitor " ++ str_of_nat (i + 1)
             ++ ": :green[€" ++ fmt_2f comp_price ++ " (You are "
             ++ fmt_2f (Qabs percentage_diff) ++ "% cheaper)]" ++ nl)
            (cheaper_count + 1) equal_count
        else
          analysis_loop own_price errors (S i) rest
            (analysis ++ "Competitor " ++ str_of_nat (i + 1)
             ++ ": :orange[€" ++ fmt_2f comp_price ++ " (Same price)]" ++ nl)
            cheaper_count (equal_count + 1)
  end.

(** The closing [if]/[elif] chain over the three counters. *)
Definition summary_line (cheaper_count equal_count valid_competitor_count : nat)
  : string :=
  if (0 <? valid_competitor_count)%nat then
    if (cheaper_count =? valid_competitor_count)%nat then
      nl ++ ":green[You have the lowest price!]"
    else if (cheaper_count + equal_count =? valid_competitor_count)%nat then
      nl ++ ":orange[Your price is the same as or lower than all competitors.]"
    else if (0 <? cheaper_count)%nat then
      nl ++ ":yellow[You are cheaper than " ++ str_of_nat cheaper_count
      ++ " out of " ++ str_of_nat valid_competitor_count ++ " competitors.]"
    else
      nl ++ ":red[Your price is higher than all competitors.]"
  else
    nl ++ "Unable to compare with competitors due to price fetch errors.".

Definition analyze_results (product : Product) (prices : price_list)
           (errors : error_list) : Res string :=
  match prices, errors with
  | [], _ | _, [] => Raise (IndexError "list index out of range")
  | (_, own_price) :: competitor_prices, (_, own_error) :: _ =>
      match own_price with
      | None =>
          Return ("Unable to fetch price for " ++ url product ++ nl
                  ++ "Error: " ++ str_opt own_error)
      | Some own_price =>
          let analysis :=
            "**Your product (" ++ url product ++ ")**" ++ nl ++ nl
            ++ "Your price: €" ++ fmt_2f own_price ++ nl ++ nl in
          st <- analysis_loop own_price errors 0 competitor_prices
                              analysis 0 0 ;;
          let '(analysis, cheaper_count, equal_count) := st in
          let valid_competitor_count :=
            List.length (filter has_price competitor_prices) in
          Return (analysis
                  ++ summary_line cheaper_count equal_count
                                  valid_competitor_count)
      end
  end.

(* ================================================================== *)
(** ** The classification as the specification words it *)

Inductive Comparison : Type := MoreExpensive | Cheaper | Equal.

(** [diff = ownPrice - competitorPrice]; more-expensive when [diff > 0],
    cheaper when [diff < 0], equal when [diff == 0]. *)
Definition classify_spec (own comp : Q) : Comparison :=
  let diff := (own - comp)%Q in
  if Qlt_bool 0%Q diff then MoreExpensive
  else if Qlt_bool diff 0%Q then Cheaper
  else Equal.

Inductive Aggregate : Type :=
| LowestPrice
| SameOrLowerThanAll
| CheaperThan (k n : nat)
| HigherThanAll
| UnableToCompare.

(** The competitors with a valid price. *)
Fixpoint valid_prices (competitor_prices : price_list) : list Q :=
  match competitor_prices with
  | [] => []
  | (_, Some p) :: r => p :: valid_prices r
  | (_, None) :: r => valid_prices r
  end.

(** "If own is cheaper than all of them: lowest price; else if own is
    cheaper-than-or-equal to all: same or lower than all; else if own is
    cheaper than at least one: cheaper than K of N; else higher than all.
    If validCount == 0: unable to compare." *)
Definition aggregate_spec (own : Q) (valid : list Q) : Aggregate :=
  match valid with
  | [] => UnableToCompare
  | _ =>
      if forallb (fun c => Qlt_bool own c) valid then LowestPrice
      else if forallb (fun c => Qle_bool own c) valid then SameOrLowerThanAll
      else if existsb (fun c => Qlt_bool own c) valid then
        CheaperThan (List.length (filter (fun c => Qlt_bool own c) valid))
                    (List.length valid)
      else HigherThanAll
  end.

(** The number of valid competitors the own price undercuts, and the
    number it equals. *)
Definition cheaper_of (own : Q) (valid : list Q) : nat :=
  List.length (filter (fun c => Qlt_bool own c) valid).

Definition equal_of (own : Q) (valid : list Q) : nat :=
  List.length (filter (fun c => Qeq_bool own c) valid).

(** The sentence the report carries for each aggregate. *)
Definition aggregate_text (a : Aggregate) : string :=
  match a with
  | LowestPrice => nl ++ ":green[You have the lowest price!]"
  | SameOrLowerThanAll =>
      nl ++ ":orange[Your price is the same as or lower than all competitors.]"
  | CheaperThan k n =>
      nl ++ ":yellow[You are cheaper than " ++ str_of_nat k
      ++ " out of " ++ str_of_nat n ++ " competitors.]"
  | HigherThanAll => nl ++ ":red[Your price is higher than all competitors.]"
  | UnableToCompare =>
      nl ++ "Unable to compare with competitors due to price fetch errors."
  end.

(** The line the report carries for one competitor with a price. *)
Definition comparison_text (own comp : Q) (c : Comparison) : string :=
  let pct := (((own - comp) / comp) * 100)%Q in
  match c with
  | MoreExpensive =>
      ": :red[€" ++ fmt_2f comp ++ " (You are " ++ fmt_2f pct
      ++ "% more expensive)]" ++ nl
  | Cheaper =>
      ": :green[€" ++ fmt_2f comp ++ " (You are " ++ fmt_2f (Qabs pct)
      ++ "% cheaper)]" ++ nl
  | Equal => ": :orange[€" ++ fmt_2f comp ++ " (Same price)]" ++ nl
  end.

(** The lines of the competitors from index [i] on. *)
Fixpoint competitor_lines (own : Q) (errors : error_list) (i : nat)
         (competitor_prices : price_list) : string :=
  match competitor_prices with
  | [] => EmptyString
  | (_, None) :: r =>
      "Competitor " ++ str_of_nat (i + 1) ++ ": Unable to fetch price" ++ nl
      ++ "Error: "
      ++ str_opt (match nth_error errors (i + 1) with
                  | Some (_, e) => e
                  | None => None
                  end) ++ nl
      ++ competitor_lines own errors (S i) r
  | (_, Some comp) :: r =>
      "Competitor " ++ str_of_nat (i + 1)
      ++ comparison_text own comp (classify_spec own comp)
      ++ competitor_lines own errors (S i) r
  end.

Definition report_header (product : Product) (own : Q) : string :=
  "**Your product (" ++ url product ++ ")**" ++ nl ++ nl
  ++ "Your price: €" ++ fmt_2f own ++ nl ++ nl.

(* ================================================================== *)
(** ** The cascade as the specification words it *)

(** The first valid amount of a list of strategy results. *)
Fixpoint first_valid (results : list (option Q)) : option Q :=
  match results with
  | [] => None
  | Some v :: _ => Some v
  | None :: r => first_valid r
  end.

(** Normalization of a value that may not be a string: "no signal" when
    it is not. *)
Definition normalize_spec (v : pyval) : option Q :=
  match v with
  | PyStr s => parse_price_str s
  | _ => None
  end.

(** The field [offers.price] of a JSON object, normalized. *)
Definition offers_price (root : pyval) : option Q :=
  match root with
  | PyDict items =>
      match dict_get items "offers" with
      | Some (PyDict offers) =>
          match dict_get offers "price" with
          | Some price => normalize_spec price
          | None => None
          end
      | _ => None
      end
  | _ => None
  end.

Section CascadeSpec.

Variable json_loads : string -> option pyval.

(** One meta element of the priority list: the content attribute of
    the first match, normalized. *)
Definition meta_strategy (key value : string) (soup : node) : option Q :=
  match find (by_name_attr "meta" key value) soup with
  | Some m => normalize_spec (tag_get m "content")
  | None => None
  end.

Definition microdata_strategy (soup : node) : option Q :=
  match find (by_name_attr "span" "itemprop" "price") soup with
  | Some e => parse_price_str (node_text e)
  | None => None
  end.

(** Parse the script as JSON, take the first element of a sequence,
    look for [offers.price], normalize; every failure is "no signal". *)
Definition json_ld_strategy (soup : node) : option Q :=
  match find (by_name_attr "script" "type" "application/ld+json") soup with
  | Some script =>
      match node_string script with
      | Some s =>
          match json_loads s with
          | Some (PyList (d :: _)) => offers_price d
          | Some (PyList []) => None
          | Some data => offers_price data
          | None => None
          end
      | None => None
      end
  | None => None
  end.

Definition positional_strategy (soup : node) : option Q :=
  match find_with_siblings (by_name "h1") soup with
  | Some (_, following) =>
      sibling_loop (firstn 5 (find_next_siblings following))
  | None => None
  end.

Definition class_name_strategy (soup : node) : option Q :=
  class_loop soup price_classes.

(** "Strict order: meta-tags, microdata, structured-data script,
    positional heuristic, class-name heuristic; the first valid amount
    wins." *)
Definition cascade_spec (soup : node) : option Q :=
  first_valid
    [meta_strategy "name" "twitter:data1" soup;
     meta_strategy "property" "og:price:amount" soup;
     meta_strategy "property" "product:price:amount" soup;
     microdata_strategy soup;
     json_ld_strategy soup;
     positional_strategy soup;
     class_name_strategy soup].

End CascadeSpec.

(* ================================================================== *)
(** ** Outcomes *)

(** What a returned outcome looks like: a price of at least the minimum
    and no error, or no price and an error text. *)
Definition well_formed_outcome (o : outcome) : Prop :=
  (exists v, o = (Some v, None) /\ (min_price <= v)%Q) \/
  (exists m, o = (None, Some m)).

(** An entry of [results] and the entry of [errors] at the same index. *)
Definition entry_ok (r : string * option Q) (e : string * option string)
  : Prop :=
  fst r = fst e /\ well_formed_outcome (snd r, snd e).

(* ================================================================== *)
(** ** Traces *)

(** The progress values of a trace, in the order of their emission. *)
Fixpoint progress_values (t : list event) : list Q :=
  match t with
  | [] => []
  | EvProgress v :: r => v :: progress_values r
  | EvGet _ :: r => progress_values r
  end.

(** The requests of a trace, in the order of their emission. *)
Fixpoint requests_of (t : list event) : list request :=
  match t with
  | [] => []
  | EvGet q :: r => q :: requests_of r
  | EvProgress _ :: r => requests_of r
  end.

Fixpoint nondecreasing (l : list Q) : Prop :=
  match l with
  | a :: (b :: _) as r => (a <= b)%Q /\ nondecreasing r
  | _ => True
  end.

(** The baseline request of [fetch_price] and the request of its retry,
    whose User-Agent is the one [random.choice] draws in [w]. *)
Definition first_request (u : string) : request :=
  mkRequest u baseline_headers 10.

Definition retry_request (u : string) (w : World) : request :=
  mkRequest u
    (full_headers
       (nth (rnd w (draws w) mod List.length user_agents) user_agents
            EmptyString)) 10.

(** The events one call of [fetch_price] on [u] can add: one GET with
    the baseline headers, or that GET followed by one GET with a full
    header set around one of the user agents. *)
Definition fetch_events (u : string) (g : list event) : Prop :=
  g = [EvGet (mkRequest u baseline_headers 10)] \/
  exists ua, In ua user_agents /\
    g = [EvGet (mkRequest u baseline_headers 10);
         EvGet (mkRequest u (full_headers ua) 10)].

(** The events of the URLs [us], fetched in order, the [k]-th completed
    URL of the run followed by exactly one progress value [k / total]. *)
Inductive url_segments (total : nat) : nat -> list string -> list event -> Prop :=
| segments_nil : forall k, url_segments total k [] []
| segments_cons : forall k u us g t,
    fetch_events u g ->
    url_segments total (S k) us t ->
    url_segments total k (u :: us)
                 (g ++ EvProgress (int_div (S k) total) :: t)%list.

(** The URLs [us] fetched in order from the world [w] on: [outs] are the
    outcomes [fetch_price] returns, the fetch of a URL starting in the
    world its predecessor left, after the progress value of the [k]-th
    completed URL, [k / total]. *)
Inductive fetched (jl : string -> option pyval) (total : nat)
  : nat -> list string -> World -> list outcome -> World -> Prop :=
| fetched_nil : forall k w, fetched jl total k [] w [] w
| fetched_cons : forall k u us w o w1 outs w',
    fetch_price jl u w = (Return o, w1) ->
    fetched jl total (S k) us
            (log (EvProgress (int_div (S k) total)) w1) outs w' ->
    fetched jl total k (u :: us) w (o :: outs) w'.

(* ================================================================== *)
(** ** Concrete documents, networks and runs *)

(** A stand-in for [json.loads] that knows the texts of a finite table
    and rejects every other text. *)
Fixpoint json_of_table (table : list (string * pyval)) (s : string)
  : option pyval :=
  match table with
  | [] => None
  | (k, v) :: r => if String.eqb k s then Some v else json_of_table r s
  end.

Definition page (head body : list node) : node :=
  Tag "[document]" []
      [Tag "html" [] [Tag "head" [] head; Tag "body" [] body]].

(** [<meta name="twitter:data1" content="n/a">] with a microdata price
    and a class-based price in the body. *)
Definition doc_meta_malformed : node :=
  page [Tag "meta" [("name", "twitter:data1"); ("content", "n/a")] []]
       [Tag "span" [("itemprop", "price")] [Text "19,99"];
        Tag "div" [("class", "price")] [Text "EUR 19,99"]].

(** A sub-threshold [twitter:data1] price before a valid
    [og:price:amount] price. *)
Definition doc_meta_below_minimum : node :=
  page [Tag "meta" [("name", "twitter:data1"); ("content", "0.50")] [];
        Tag "meta" [("property", "og:price:amount"); ("content", "24.95")] []]
       [Tag "h1" [] [Text "Widget"]].

(** A valid [twitter:data1] price and a conflicting element of class
    [price]. *)
Definition doc_meta_and_class : node :=
  page [Tag "meta" [("name", "twitter:data1"); ("content", "19,99")] []]
       [Tag "h1" [] [Text "Widget"];
        Tag "p" [("class", "price")] [Text "EUR 24,95"]].

(** [<script type="application/ld+json">[]</script>] before a heading
    whose next sibling shows the price. *)
Definition doc_json_ld_empty_list : node :=
  page []
       [Tag "script" [("type", "application/ld+json")] [Text "[]"];
        Tag "h1" [] [Text "Widget"];
        Tag "p" [("class", "price")] [Text "EUR 19,99"]].

(** The same page with an empty script element. *)
Definition doc_json_ld_empty_script : node :=
  page []
       [Tag "script" [("type", "application/ld+json")] [];
        Tag "h1" [] [Text "Widget"];
        Tag "p" [("class", "price")] [Text "EUR 19,99"]].

(** The same page with a script that is not JSON. *)
Definition doc_json_ld_not_json : node :=
  page []
       [Tag "script" [("type", "application/ld+json")] [Text "{oops"];
        Tag "h1" [] [Text "Widget"];
        Tag "p" [("class", "price")] [Text "EUR 19,99"]].

(** [<meta name="twitter:data1">], without a content attribute. *)
Definition doc_meta_without_content : node :=
  page [Tag "meta" [("name", "twitter:data1")] []]
       [Tag "h1" [] [Text "Widget"];
        Tag "p" [("class", "price")] [Text "EUR 19,99"]].

Definition doc_plain (price : string) : node :=
  page [] [Tag "h1" [] [Text "Widget"]; Tag "p" [] [Text price]].

Definition json_table_empty_list : string -> option pyval :=
  json_of_table [("[]", PyList [])].

Definition ok_response (u : string) (body : node) : get_result :=
  GetResponse (mkResponse 200 "OK" u body).

Definition status_response (u : string) (sc : nat) (why : string)
  : get_result :=
  GetResponse (mkResponse sc why u (page [] [])).

Definition world_of (n : nat -> request -> get_result) : World :=
  mkWorld n (fun _ => 0) 0 0 [].

(** Every URL answers 200 with a page that shows the price 12,50. *)
Definition net_all_ok : nat -> request -> get_result :=
  fun _ q => ok_response (req_url q) (doc_plain "12,50").

(** The first GET is answered 403; the retry is answered 200 with a page
    whose price meta element has no content attribute. *)
Definition net_blocked_then_bad_page : nat -> request -> get_result :=
  fun k q =>
    match k with
    | 0 => status_response (req_url q) 403 "Forbidden"
    | _ => ok_response (req_url q) doc_meta_without_content
    end.

(** Every GET is answered 200 with that page. *)
Definition net_bad_page : nat -> request -> get_result :=
  fun _ q => ok_response (req_url q) doc_meta_without_content.

(** The first GET is answered 403, the retry 200 with a priced page. *)
Definition net_blocked_then_ok : nat -> request -> get_result :=
  fun k q =>
    match k with
    | 0 => status_response (req_url q) 403 "Forbidden"
    | _ => ok_response (req_url q) (doc_plain "12,50")
    end.

(** The own shop cannot be reached; every other URL answers 404. *)
Definition net_own_down : nat -> request -> get_result :=
  fun _ q =>
    if String.eqb (req_url q) "https://own.example/p"
    then GetRaise (ConnectionFailed "Connection refused")
    else status_response (req_url q) 404 "Not Found".

Definition own_only : Product :=
  mkProduct "https://own.example/p" [] 0.

Definition own_and_two : Product :=
  mkProduct "https://own.example/p"
            ["https://a.example/p"; "https://b.example/p"] 0.

Definition no_json : string -> option pyval := fun _ => None.

(** The strings of [n] zeros. *)
Fixpoint zeros (n : nat) : string :=
  match n with
  | O => EmptyString
  | S k => String "0"%char (zeros k)
  end.

(* ================================================================== *)
(** ** Notions used by the further properties *)

(** The number of commas and periods of a string. *)
Fixpoint count_separators (s : string) : nat :=
  match s with
  | EmptyString => 0
  | String c r =>
      (if Ascii.eqb c comma || Ascii.eqb c period then 1 else 0)
      + count_separators r
  end.

Fixpoint count_periods (s : string) : nat :=
  match s with
  | EmptyString => 0
  | String c r => (if Ascii.eqb c period then 1 else 0) + count_periods r
  end.

(** The amount in the first element of a class, if any. *)
Definition class_candidate (soup : node) (class_name : string) : option Q :=
  match find (by_class class_name) soup with
  | Some e => extract_price_from_element e
  | None => None
  end.

(** The places the heuristic extractor looks at, in its order: the first
    five tags that follow the first heading among its siblings, then the
    first element of each price class. *)
Definition heuristic_candidates (soup : node) : list (option Q) :=
  (match find_with_siblings (by_name "h1") soup with
   | Some (_, following) =>
       map extract_price_from_element
           (firstn 5 (find_next_siblings following))
   | None => []
   end ++ map (class_candidate soup) price_classes)%list.

(** What step 3 of [extract_price] does with a JSON object, by the shape
    of its [offers] member; [fallback] is the result of the heuristic
    extractor. *)
Definition json_object_result (items : list (string * pyval))
           (fallback : option Q) : Res (option Q) :=
  match dict_get items "offers" with
  | None => Return fallback
  | Some (PyDict offers) =>
      match dict_get offers "price" with
      | None => Return fallback
      | Some (PyStr p) => Return (parse_price_str p)
      | Some _ => Raise (TypeError "expected string or bytes-like object")
      end
  | Some (PyList l) =>
      if existsb (fun v => match v with
                           | PyStr x => String.eqb x "price"
                           | _ => false
                           end) l
      then Raise (TypeError "indices must be integers or slices, not str")
      else Return fallback
  | Some (PyStr t) =>
      if str_contains t "price"
      then Raise (TypeError "indices must be integers or slices, not str")
      else Return fallback
  | Some _ => Raise (TypeError "argument is not iterable")
  end.

(** A page whose JSON-LD script is the text [product] and whose heading
    is followed by the price 24,95. *)
Definition doc_json_ld_product : node :=
  page []
       [Tag "script" [("type", "application/ld+json")] [Text "product"];
        Tag "h1" [] [Text "Widget"];
        Tag "p" [] [Text "24,95"]].

(** A parser that reads the text [product] as an object whose price is
    the number 19.99. *)
Definition json_numeric_price : string -> option pyval :=
  json_of_table
    [("product",
      PyDict [("name", PyStr "Widget");
              ("offers", PyDict [("priceCurrency", PyStr "EUR");
                                 ("price", PyNum (1999 # 100)%Q)])])].

(** A heading followed by text, six tags and more text; only the sixth
    tag shows a price. *)
Definition doc_six_siblings : node :=
  page []
       [Tag "h1" [] [Text "Widget"];
        Text " ";
        Tag "p" [] [Text "new"]; Tag "p" [] [Text "in stock"];
        Text " ";
        Tag "p" [] [Text "free shipping"]; Tag "p" [] [Text "reviews"];
        Tag "p" [] [Text "share"];
        Tag "p" [] [Text "19,99"]].

(** The four forms of the error text of an outcome. *)
Definition fetch_error_text (m : string) : Prop :=
  m = not_found_msg
  \/ (exists x, m = "Error fetching URL: " ++ x)
  \/ (exists x, m = "Error fetching URL (with bypass): " ++ x)
  \/ (exists x, m = "Unexpected error: " ++ x).

(** Whether the first GET for [u] in [w] is answered with status 403. *)
Definition blocked (u : string) (w : World) : bool :=
  match net w (gets w) (first_request u) with
  | GetResponse r => (status_code r =? 403)%nat
  | GetRaise _ => false
  end.

(** A network that never answers 403. *)
Definition never_blocked (w : World) : Prop :=
  forall k q r, net w k q = GetResponse r -> status_code r <> 403.

(** The outcome of the first attempt on a response that
    [raise_for_status] accepts. *)
Definition accepted_outcome (extracted : Res (option Q)) : outcome :=
  match extracted with
  | Return (Some p) => (Some p, None)
  | Return None => (None, Some not_found_msg)
  | Raise e => (None, Some ("Unexpected error: " ++ exn_str e))
  end.

(** Every GET is answered 403. *)
Definition net_always_blocked : nat -> request -> get_result :=
  fun _ q => status_response (req_url q) 403 "Forbidden".

(** Every GET is answered 304 with an empty page. *)
Definition net_not_modified : nat -> request -> get_result :=
  fun _ q => status_response (req_url q) 304 "Not Modified".

(** [u] repeated [k] times for each pair [(u, k)]. *)
Definition visits (urls : list string) (ks : list nat) : list string :=
  flat_map (fun uk => repeat (fst uk) (snd uk)) (combine urls ks).

(** The lists [compare_prices] returns for [own_and_two] when every GET
    is answered 403. *)
Definition all_blocked_lists : price_list * error_list :=
  let blocked_text (u : string) :=
    "Error fetching URL (with bypass): 403 Client Error: Forbidden for url: "
    ++ u in
  let urls := ["https://own.example/p"; "https://a.example/p";
               "https://b.example/p"] in
  (map (fun u => (u, @None Q)) urls,
   map (fun u => (u, Some (blocked_text u))) urls).

(** The URLs of a list of entries replaced through [f]. *)
Definition rename_urls {A} (f : string -> string) (l : list (string * A))
  : list (string * A) :=
  map (fun x => (f (fst x), snd x)) l.

(* ================================================================== *)
(** * Properties *)

(** ** Strings and digits *)

Lemma re_sub_non_price_filter (s : string) :
  list_ascii_of_string (re_sub_non_price s)
  = filter is_price_char (list_ascii_of_string s).
Proof.
  induction s as [|c r IH]; simpl; [reflexivity|].
  destruct (is_price_char c); simpl; now rewrite IH.
Qed.

Lemma replace_comma_map (s : string) :
  list_ascii_of_string (replace_comma s)
  = map (fun c => if Ascii.eqb c comma then period else c)
        (list_ascii_of_string s).
Proof.
  induction s as [|c r IH]; simpl; [reflexivity|]. now rewrite IH.
Qed.

Lemma digits_value_snoc (s : string) (c : ascii) (acc : N) :
  digits_value acc (s ++ String c EmptyString)
  = (10 * digits_value acc s + digit_value c)%N.
Proof.
  revert acc. induction s as [|d r IH]; intros acc; simpl; [reflexivity|].
  apply IH.
Qed.

Lemma is_digit_facts (c : ascii) :
  is_digit c = true ->
  is_price_char c = true /\ Ascii.eqb c comma = false
  /\ Ascii.eqb c period = false.
Proof.
  destruct c as [[] [] [] [] [] [] [] []]; vm_compute; intuition congruence.
Qed.

Lemma all_digits_clean (s : string) :
  all_digits s = true ->
  re_sub_non_price s = s /\ replace_comma s = s
  /\ split_period s = (s, None).
Proof.
  induction s as [|c r IH]; simpl; [easy|].
  intros H. apply andb_true_iff in H as [Hc Hr].
  destruct (is_digit_facts c Hc) as (H1 & H2 & H3).
  destruct (IH Hr) as (I1 & I2 & I3).
  rewrite H1, H2, H3, I1, I2, I3. easy.
Qed.

Lemma append_empty_r (s : string) : s ++ EmptyString = s.
Proof. induction s as [|c r IH]; simpl; [reflexivity|]. now rewrite IH. Qed.

(** A string of digits is parsed as the integer it denotes. *)
Lemma parse_price_digits (c : ascii) (r : string) :
  all_digits (String c r) = true ->
  parse_price_str (String c r)
  = let v := Qred (Z.of_N (digits_value 0 (String c r)) # 1) in
    if Qle_bool min_price v then Some v else None.
Proof.
  intros H. destruct (all_digits_clean _ H) as (H1 & H2 & H3).
  unfold parse_price_str, py_float. rewrite H1, H2, H3, H.
  rewrite append_empty_r. reflexivity.
Qed.

Lemma all_digits_zeros (n : nat) : all_digits (zeros n) = true.
Proof. induction n as [|k IH]; simpl; [reflexivity|]. now rewrite IH. Qed.

Lemma digits_value_zeros (n : nat) (acc : N) :
  digits_value acc (zeros n) = (acc * 10 ^ N.of_nat n)%N.
Proof.
  revert acc. induction n as [|k IH]; intros acc.
  - simpl. lia.
  - cbn [zeros digits_value]. rewrite IH.
    replace (digit_value "0") with 0%N by reflexivity.
    rewrite Nat2N.inj_succ, N.pow_succ_r'. lia.
Qed.

Lemma parse_price_two_zeros (n : nat) :
  parse_price_str (String "2"%char (zeros n))
  = Some (Qred (Z.of_N (2 * 10 ^ N.of_nat n) # 1)).
Proof.
  rewrite parse_price_digits
    by (cbn [all_digits]; rewrite all_digits_zeros; reflexivity).
  cbn [digits_value]. rewrite digits_value_zeros.
  replace (10 * 0 + digit_value "2")%N with 2%N by reflexivity.
  cbv zeta.
  assert (Hle : Qle_bool min_price (Qred (Z.of_N (2 * 10 ^ N.of_nat n) # 1))
                = true).
  { apply Qle_bool_iff. rewrite Qred_correct. unfold min_price, Qle.
    cbn [Qnum Qden].
    assert (0 < 10 ^ N.of_nat n)%N by (apply N.neq_0_lt_0, N.pow_nonzero; lia).
    lia. }
  now rewrite Hle.
Qed.

(** ** The numeric normalizer *)

Lemma Qlt_bool_iff (a b : Q) : Qlt_bool a b = true <-> (a < b)%Q.
Proof.
  unfold Qlt_bool. rewrite negb_true_iff.
  split.
  - intros H. apply Qnot_le_lt. intros Hle.
    apply Qle_bool_iff in Hle. congruence.
  - intros H. destruct (Qle_bool b a) eqn:E; [|reflexivity].
    apply Qle_bool_iff in E. apply Qlt_not_le in H. contradiction.
Qed.

Lemma Qle_bool_false_iff (a b : Q) : Qle_bool a b = false <-> (b < a)%Q.
Proof.
  rewrite <- Qlt_bool_iff. unfold Qlt_bool.
  destruct (Qle_bool a b); simpl; intuition congruence.
Qed.

Lemma parse_price_str_min (s : string) (v : Q) :
  parse_price_str s = Some v -> (min_price <= v)%Q.
Proof.
  unfold parse_price_str.
  destruct (py_float _) as [p|]; [|discriminate].
  destruct (Qle_bool min_price p) eqn:E; [|discriminate].
  intros [= <-]. now apply Qle_bool_iff.
Qed.

(** The decimal value [py_float] computes. *)

Lemma digits_value_shift (s : string) (acc : N) :
  digits_value acc s
  = (acc * 10 ^ N.of_nat (String.length s) + digits_value 0 s)%N.
Proof.
  revert acc. induction s as [|c r IH]; intros acc.
  - simpl. lia.
  - cbn [digits_value String.length].
    rewrite (IH (10 * acc + digit_value c)%N), (IH (10 * 0 + digit_value c)%N).
    rewrite Nat2N.inj_succ, N.pow_succ_r'. lia.
Qed.

Lemma digits_value_append (a b : string) :
  digits_value 0 (a ++ b)
  = (digits_value 0 a * 10 ^ N.of_nat (String.length b) + digits_value 0 b)%N.
Proof.
  assert (H : forall acc,
             digits_value acc (a ++ b) = digits_value (digits_value acc a) b).
  { induction a as [|c r IH]; intros acc; [reflexivity|].
    cbn [append digits_value]. apply IH. }
  rewrite H. apply digits_value_shift.
Qed.

Lemma split_period_digits (a b : string) :
  all_digits a = true ->
  split_period (a ++ String period b) = (a, Some b).
Proof.
  induction a as [|c r IH]; intros H.
  - reflexivity.
  - cbn [all_digits] in H. apply andb_true_iff in H as [Hc Hr].
    destruct (is_digit_facts c Hc) as (_ & _ & Hp).
    cbn [append split_period]. rewrite Hp, (IH Hr). reflexivity.
Qed.

(** [digits.digits] denotes the integer part plus the fraction part over
    the matching power of ten. *)
Lemma py_float_decimal (ip fp : string) :
  all_digits ip = true -> all_digits fp = true ->
  String.length ip + String.length fp <> 0 ->
  exists v,
    py_float (ip ++ String period fp) = Some v
    /\ (v == inject_Z (Z.of_N (digits_value 0 ip))
             + (Z.of_N (digits_value 0 fp)
                # Z.to_pos (10 ^ Z.of_nat (String.length fp))))%Q.
Proof.
  intros Hi Hf Hn. unfold py_float.
  rewrite (split_period_digits _ _ Hi), Hi, Hf.
  apply Nat.eqb_neq in Hn. rewrite Hn. cbn [andb negb].
  eexists. split; [reflexivity|].
  rewrite Qred_correct, digits_value_append.
  assert (Hp : (0 < 10 ^ Z.of_nat (String.length fp))%Z)
    by (apply Z.pow_pos_nonneg; lia).
  unfold Qeq, Qplus, inject_Z. cbn [Qnum Qden].
  rewrite N2Z.inj_add, N2Z.inj_mul, N2Z.inj_pow, nat_N_Z.
  rewrite Pos2Z.inj_mul, Z2Pos.id by exact Hp.
  change (Z.of_N 10) with 10%Z. ring.
Qed.

Section NormalizerFacts.

Variable char : Type.
Variable char_eqb : char -> char -> bool.
Variable is_decimal : char -> bool.
Variables comma_char period_char : char.
Hypothesis char_eqb_spec : forall a b, char_eqb a b = true <-> a = b.

Lemma re_sub_over_filter (s : list char) :
  re_sub_over char_eqb is_decimal comma_char period_char s
  = filter (fun c => is_decimal c || char_eqb c comma_char
                     || char_eqb c period_char) s.
Proof.
  induction s as [|c r IH]; cbn [re_sub_over filter]; [reflexivity|].
  now rewrite IH.
Qed.

Lemma keeps_spec (c : char) :
  is_decimal c || char_eqb c comma_char || char_eqb c period_char = true
  <-> is_decimal c = true \/ c = comma_char \/ c = period_char.
Proof.
  rewrite !orb_true_iff, !char_eqb_spec. tauto.
Qed.

Lemma replace_over_map (s : list char) :
  replace_over char_eqb comma_char period_char s
  = map (fun c => if char_eqb c comma_char then period_char else c) s.
Proof.
  induction s as [|c r IH]; cbn [replace_over map]; [reflexivity|].
  now rewrite IH.
Qed.

Lemma cleaned_alphabet (s : list char) :
  Forall (fun c => is_decimal c = true \/ c = period_char)
         (replace_over char_eqb comma_char period_char
            (re_sub_over char_eqb is_decimal comma_char period_char s)).
Proof.
  rewrite re_sub_over_filter, replace_over_map.
  apply Forall_forall. intros c Hc.
  apply in_map_iff in Hc as (x & <- & Hx).
  apply filter_In in Hx as [_ Hk]. cbv beta in Hk. apply keeps_spec in Hk.
  destruct (char_eqb x comma_char) eqn:E; [now right|].
  destruct Hk as [H|[H|H]]; [now left| |now right].
  apply char_eqb_spec in H. congruence.
Qed.

End NormalizerFacts.

Lemma re_sub_over_string (s : string) :
  re_sub_over Ascii.eqb is_digit comma period (list_ascii_of_string s)
  = list_ascii_of_string (re_sub_non_price s).
Proof.
  induction s as [|c r IH]; cbn [list_ascii_of_string re_sub_over re_sub_non_price];
    [reflexivity|].
  unfold is_price_char. rewrite IH.
  now destruct (is_digit c || Ascii.eqb c comma || Ascii.eqb c period).
Qed.

Lemma replace_over_string (s : string) :
  replace_over Ascii.eqb comma period (list_ascii_of_string s)
  = list_ascii_of_string (replace_comma s).
Proof.
  induction s as [|c r IH]; cbn [list_ascii_of_string replace_over replace_comma];
    [reflexivity|].
  now rewrite IH.
Qed.

Lemma parse_price_str_over (s : string) :
  parse_price_str s
  = parse_price_over Ascii.eqb is_digit comma period
      (fun l => py_float (string_of_list_ascii l)) (Qle_bool min_price)
      (list_ascii_of_string s).
Proof.
  unfold parse_price_over, parse_price_str.
  now rewrite re_sub_over_string, replace_over_string,
    string_of_list_ascii_of_string.
Qed.

Lemma is_digit_chars (c : ascii) : is_digit c = true <-> In c digit_chars.
Proof.
  unfold digit_chars.
  destruct c as [[] [] [] [] [] [] [] []]; vm_compute;
    (split;
     [ intros H; try discriminate H; tauto
     | intros H; repeat (destruct H as [H|H]; try discriminate H); try reflexivity; try contradiction ]).
Qed.

(* Stdlib numerals *)
Lemma uint_of_string_digits (s : string) (u : uint) :
  NilEmpty.uint_of_string s = Some u ->
  all_digits s = true
  /\ nb_digits u = String.length s
  /\ forall acc,
      digits_value acc s
      = (acc * 10 ^ N.of_nat (String.length s) + N.of_uint u)%N.
Proof.
  revert u. induction s as [|c r IH]; intros u.
  - intros [= <-]. repeat split. intros acc. cbn. lia.
  - cbn [NilEmpty.uint_of_string].
    destruct (NilEmpty.uint_of_string r) as [ur|]; [|discriminate].
    intros H. destruct (IH ur eq_refl) as (Hd & Hn & Hv).
    assert (Hsz : Unsigned.usize ur = N.of_nat (String.length r)).
    { rewrite <- Hn. clear. induction ur; cbn [Unsigned.usize nb_digits];
        rewrite ?Nat2N.inj_succ; first [reflexivity | congruence]. }
    assert (Hc : is_digit c = true
                 /\ N.of_uint u
                    = (digit_value c * 10 ^ N.of_nat (String.length r)
                       + N.of_uint ur)%N
                 /\ nb_digits u = S (nb_digits ur)).
    { apply uint_of_char_spec in H.
      unfold N.of_uint. rewrite !Unsigned.of_uint_alt.
      decompose [or and] H; subst c u;
        (split; [reflexivity|]); (split; [|reflexivity]);
        unfold rev; cbn [revapp]; rewrite Unsigned.of_lu_revapp, Hsz;
        unfold rev; cbn [Unsigned.of_lu];
        change (digit_value _) with 0%N + change (digit_value _) with 1%N
        + change (digit_value _) with 2%N + change (digit_value _) with 3%N
        + change (digit_value _) with 4%N + change (digit_value _) with 5%N
        + change (digit_value _) with 6%N + change (digit_value _) with 7%N
        + change (digit_value _) with 8%N + change (digit_value _) with 9%N;
        lia. }
    destruct Hc as (Hc & Hu & Hnb).
    split; [cbn [all_digits]; now rewrite Hc, Hd|].
    split; [cbn [String.length]; congruence|].
    intros acc. cbn [digits_value String.length].
    rewrite Hv, Hu, Nat2N.inj_succ, N.pow_succ_r'. lia.
Qed.

Lemma all_digits_uint (s : string) :
  all_digits s = true -> exists u, NilEmpty.uint_of_string s = Some u.
Proof.
  induction s as [|c r IH]; cbn [all_digits NilEmpty.uint_of_string].
  - now exists Nil.
  - intros H. apply andb_true_iff in H as [Hc Hr].
    destruct (IH Hr) as (u & ->).
    apply is_digit_chars in Hc. unfold digit_chars in Hc.
    repeat (destruct Hc as [<-|Hc]; [eexists; reflexivity|]).
    contradiction.
Qed.

Lemma split_period_parts (s ip : string) (rest : option string) :
  split_period s = (ip, rest) ->
  match rest with
  | Some fp => s = ip ++ String period fp
  | None => s = ip
  end.
Proof.
  revert ip rest. induction s as [|c r IH]; intros ip rest.
  - intros [= <- <-]. reflexivity.
  - cbn [split_period].
    destruct (Ascii.eqb c period) eqn:Ep.
    + intros [= <- <-]. apply Ascii.eqb_eq in Ep. now subst c.
    + destruct (split_period r) as [a b] eqn:Es.
      intros [= <- <-]. specialize (IH a b eq_refl).
      destruct b; cbn [append]; now rewrite <- IH.
Qed.

Lemma numeral_value_digits (ip fp : string) (ui uf : uint) :
  NilEmpty.uint_of_string ip = Some ui ->
  NilEmpty.uint_of_string fp = Some uf ->
  (numeral_value ui uf
   == inject_Z (Z.of_N (digits_value 0 ip))
      + (Z.of_N (digits_value 0 fp)
         # Z.to_pos (10 ^ Z.of_nat (String.length fp))))%Q.
Proof.
  intros Hi Hf.
  destruct (uint_of_string_digits _ _ Hi) as (_ & _ & Vi).
  destruct (uint_of_string_digits _ _ Hf) as (_ & Nf & Vf).
  unfold numeral_value. rewrite Nf, (Vi 0%N), (Vf 0%N).
  rewrite !N.mul_0_l, !N.add_0_l. reflexivity.
Qed.

Lemma digits_and_separator_clean (ip fp : string) (sep : ascii) :
  all_digits ip = true -> all_digits fp = true ->
  sep = comma \/ sep = period ->
  replace_comma (re_sub_non_price (ip ++ String sep fp))
  = ip ++ String period fp.
Proof.
  intros Hi Hf Hsep.
  destruct (all_digits_clean _ Hf) as (F1 & F2 & _).
  induction ip as [|c r IH].
  - cbn [append re_sub_non_price].
    replace (is_price_char sep) with true
      by (destruct Hsep; subst sep; reflexivity).
    cbn [replace_comma]. rewrite F1, F2.
    destruct Hsep; subst sep; reflexivity.
  - cbn [all_digits] in Hi. apply andb_true_iff in Hi as [Hc Hr].
    destruct (is_digit_facts c Hc) as (H1 & H2 & _).
    cbn [append re_sub_non_price]. rewrite H1.
    cbn [replace_comma]. rewrite H2, (IH Hr). reflexivity.
Qed.

(** A numeral with a comma or a period: the value [parse_price] tests
    against the minimum is the number the numeral denotes. *)
Lemma parse_price_numeral (ip fp : string) (ui uf : uint) (sep : ascii) :
  NilEmpty.uint_of_string ip = Some ui ->
  NilEmpty.uint_of_string fp = Some uf ->
  String.length ip + String.length fp <> 0 ->
  sep = comma \/ sep = period ->
  exists v,
    (v == numeral_value ui uf)%Q
    /\ parse_price_str (ip ++ String sep fp)
       = if Qle_bool min_price v then Some v else None.
Proof.
  intros Hi Hf Hn Hsep.
  destruct (uint_of_string_digits _ _ Hi) as (Di & _ & _).
  destruct (uint_of_string_digits _ _ Hf) as (Df & _ & _).
  destruct (py_float_decimal ip fp Di Df Hn) as (v & Hv & Hq).
  exists v. split.
  - rewrite Hq. symmetry. now apply numeral_value_digits.
  - unfold parse_price_str.
    now rewrite (digits_and_separator_clean ip fp sep Di Df Hsep), Hv.
Qed.



(** ** Every extracted amount is at least the minimum *)

Ltac break_match_in H :=
  repeat match type of H with
         | context [match ?x with _ => _ end] =>
             let E := fresh "E" in destruct x eqn:E; try discriminate H
         end.

Lemma min_price_pos (v : Q) : (min_price <= v)%Q -> (0 < v)%Q /\ ~ (v == 0)%Q.
Proof. unfold min_price. intros H. split; lra. Qed.

Lemma parse_price_min (x : pyval) (v : Q) :
  parse_price x = Return (Some v) -> (min_price <= v)%Q.
Proof.
  destruct x; try discriminate. intros [= H]. eapply parse_price_str_min, H.
Qed.

Lemma sibling_loop_min (l : list node) (v : Q) :
  sibling_loop l = Some v -> (min_price <= v)%Q.
Proof.
  induction l as [|n r IH]; simpl; [discriminate|].
  destruct (truthy _); [|exact IH].
  unfold extract_price_from_element. apply parse_price_str_min.
Qed.

Lemma class_loop_min (soup : node) (cs : list string) (v : Q) :
  class_loop soup cs = Some v -> (min_price <= v)%Q.
Proof.
  induction cs as [|c r IH]; simpl; [discriminate|].
  destruct (find _ soup); [|exact IH].
  destruct (truthy _); [|exact IH].
  unfold extract_price_from_element. apply parse_price_str_min.
Qed.

Lemma find_price_in_html_min (soup : node) (v : Q) :
  find_price_in_html soup = Some v -> (min_price <= v)%Q.
Proof.
  unfold find_price_in_html.
  destruct (find_with_siblings _ soup) as [[h following]|].
  - destruct (sibling_loop _) eqn:E.
    + intros [= <-]. eapply sibling_loop_min, E.
    + apply class_loop_min.
  - apply class_loop_min.
Qed.

Lemma meta_loop_min (soup : node) (tags : list (string * (string * string)))
      (v : Q) :
  meta_loop soup tags = Some (Return (Some v)) -> (min_price <= v)%Q.
Proof.
  induction tags as [|[t [k a]] r IH]; simpl; [discriminate|].
  destruct (find _ soup); [|exact IH].
  intros [= H]. eapply parse_price_min, H.
Qed.

Lemma offers_price_stmt_min (data : pyval) (v : Q) :
  offers_price_stmt data = Return (Some (Some v)) -> (min_price <= v)%Q.
Proof.
  unfold offers_price_stmt, bindR. intros H.
  break_match_in H.
  injection H as H. subst. eapply parse_price_min; eassumption.
Qed.

Lemma json_ld_try_min (jl : string -> option pyval) (script : node) (v : Q) :
  json_ld_try jl script = Return (Some (Some v)) -> (min_price <= v)%Q.
Proof.
  unfold json_ld_try, bindR. intros H.
  break_match_in H; eapply offers_price_stmt_min; eassumption.
Qed.

Lemma extract_price_min (jl : string -> option pyval) (soup : node)
      (u : string) (v : Q) :
  extract_price jl soup u = Return (Some v) -> (min_price <= v)%Q.
Proof.
  unfold extract_price.
  destruct (meta_loop soup meta_tags) as [r|] eqn:Em.
  { intros ->. eapply meta_loop_min, Em. }
  destruct (find (by_name_attr "span" _ _) soup).
  { apply parse_price_min. }
  destruct (find (by_name_attr "script" _ _) soup).
  - destruct (json_ld_try jl n) as [[r|]|e] eqn:Ej.
    + intros [= ->]. eapply json_ld_try_min, Ej.
    + intros [= H]. eapply find_price_in_html_min, H.
    + destruct e; try discriminate.
      intros [= H]. eapply find_price_in_html_min, H.
  - intros [= H]. eapply find_price_in_html_min, H.
Qed.

(** ** The fetch client *)

Section FetchFacts.

Variable jl : string -> option pyval.

Lemma after_get_outcome (u : string) (got : Res response) (o : outcome) :
  after_get jl u got = Return o ->
  (exists v, o = (Some v, None) /\ (min_price <= v)%Q) \/
  o = (None, Some not_found_msg).
Proof.
  unfold after_get, bindR.
  destruct got as [r|e]; [|discriminate].
  destruct (raise_for_status r); [|discriminate].
  destruct (extract_price jl (text r) u) as [[v|]|e] eqn:E;
    [| |discriminate]; intros [= <-].
  - left. exists v. split; [reflexivity|]. eapply extract_price_min, E.
  - now right.
Qed.

Lemma requests_get_trace (u : string) (hs : headers) (t : nat) (w : World) :
  trace (snd (requests_get u hs t w))
  = (trace w ++ [EvGet (mkRequest u hs t)])%list.
Proof. reflexivity. Qed.

Lemma get_random_headers_spec (w : World) :
  exists ua, In ua user_agents /\
    get_random_headers w = (Return (full_headers ua), drew w).
Proof.
  unfold get_random_headers, random_choice.
  eexists. split; [|reflexivity].
  apply nth_In. apply Nat.mod_upper_bound. discriminate.
Qed.

(** Whatever the network does, one call of [fetch_price] issues the
    baseline GET and at most one further GET, with a full header set. *)
Lemma fetch_price_trace (u : string) (w : World) :
  exists g, trace (snd (fetch_price jl u w)) = (trace w ++ g)%list
            /\ fetch_events u g.
Proof.
  unfold fetch_price, requests_get. cbv beta iota zeta.
  set (q1 := mkRequest u baseline_headers 10).
  assert (Hone : exists g, trace (sent q1 w) = (trace w ++ g)%list
                           /\ fetch_events u g).
  { eexists. split; [reflexivity|]. now left. }
  destruct (after_get jl u (res_of_get (net w (gets w) q1))) as [o|e];
    [exact Hone|].
  destruct e as [m|m|m|m|m|sc m|m|m|m]; try exact Hone.
  destruct (sc =? 403)%nat; [|exact Hone].
  destruct (get_random_headers_spec (sent q1 w)) as (ua & Hua & ->).
  cbv beta iota zeta.
  set (q2 := mkRequest u (full_headers ua) 10).
  assert (Htwo : exists g, trace (sent q2 (drew (sent q1 w)))
                           = (trace w ++ g)%list /\ fetch_events u g).
  { eexists. split.
    - cbn [sent drew trace]. rewrite <- app_assoc. reflexivity.
    - right. exists ua. split; [exact Hua|reflexivity]. }
  destruct (after_get jl u _) as [o|e]; [exact Htwo|].
  destruct (is_request_exception e); exact Htwo.
Qed.

(** Whenever [fetch_price] returns, exactly one of price and error is
    set, and a price is at least the minimum. *)
Lemma fetch_price_outcome (u : string) (w w' : World) (o : outcome) :
  fetch_price jl u w = (Return o, w') -> well_formed_outcome o.
Proof.
  unfold fetch_price, requests_get, well_formed_outcome.
  cbv beta iota zeta.
  set (q1 := mkRequest u baseline_headers 10).
  destruct (after_get jl u (res_of_get (net w (gets w) q1)))
    as [o1|e] eqn:E1.
  { intros [= <- _]. destruct (after_get_outcome _ _ _ E1) as [H| ->].
    - now left.
    - right. now eexists. }
  assert (Hother : forall m,
             (Return (None, Some m), sent q1 w) = (Return o, w') ->
             (exists v, o = (Some v, None) /\ (min_price <= v)%Q)
             \/ (exists m, o = (None, Some m))).
  { intros m [= <- _]. right. now eexists. }
  destruct e as [m|m|m|m|m|sc m|m|m|m]; try apply Hother.
  destruct (sc =? 403)%nat; [|apply Hother].
  destruct (get_random_headers_spec (sent q1 w)) as (ua & _ & ->).
  cbv beta iota zeta.
  match goal with
  | |- context [after_get jl u ?x] =>
      destruct (after_get jl u x) as [o2|e2] eqn:E2
  end.
  { intros [= <- _]. destruct (after_get_outcome _ _ _ E2) as [H| ->].
    - now left.
    - right. now eexists. }
  destruct (is_request_exception e2); [|discriminate].
  intros [= <- _]. right. now eexists.
Qed.

End FetchFacts.

(** ** The comparison engine *)

Section CompareFacts.

Variable jl : string -> option pyval.

Lemma competitor_loop_spec (total : nat) (comps : list string) :
  forall i results errors w rs es w',
    competitor_loop jl total i comps results errors w
    = (Return (rs, es), w') ->
    exists rs' es' t,
      rs = (results ++ rs')%list /\ es = (errors ++ es')%list
      /\ map fst rs' = comps /\ Forall2 entry_ok rs' es'
      /\ trace w' = (trace w ++ t)%list
      /\ url_segments total (S i) comps t.
Proof.
  induction comps as [|u rest IH]; intros i results errors w rs es w'.
  - intros [= <- <- <-]. exists [], [], [].
    rewrite !app_nil_r. repeat split; constructor.
  - cbn [competitor_loop].
    destruct (fetch_price_trace jl u w) as (g & Hg & Hev).
    destruct (fetch_price jl u w) as [[[p e]|ex] w1] eqn:F; [|discriminate].
    cbn [snd] in Hg.
    intros H. apply IH in H as (rs' & es' & t & -> & -> & Hm & Hf & Ht & Hs).
    exists ((u, p) :: rs'), ((u, e) :: es'),
      (g ++ EvProgress (int_div (S (S i)) total) :: t)%list.
    rewrite <- !app_assoc. cbn [app].
    repeat split.
    + simpl. f_equal. exact Hm.
    + constructor; [|exact Hf].
      split; [reflexivity|]. eapply fetch_price_outcome, F.
    + rewrite Ht. cbn [log trace]. rewrite Hg, <- !app_assoc. cbn [app].
      replace (i + 2) with (S (S i)) by lia. reflexivity.
    + now constructor.
Qed.

Lemma compare_prices_spec (product : Product) (w w' : World)
      (results : price_list) (errors : error_list) :
  compare_prices jl product w = (Return (results, errors), w') ->
  map fst results = url product :: competitors product
  /\ Forall2 entry_ok results errors
  /\ exists t,
      trace w' = (trace w ++ EvProgress 0 :: t ++ [EvProgress 1])%list
      /\ url_segments (List.length (competitors product) + 1) 0
                      (url product :: competitors product) t.
Proof.
  unfold compare_prices. cbv zeta.
  set (total := List.length (competitors product) + 1).
  set (w0 := log (EvProgress 0) w).
  destruct (fetch_price_trace jl (url product) w0) as (g & Hg & Hev).
  destruct (fetch_price jl (url product) w0) as [[[p e]|ex] w1] eqn:F;
    [|discriminate].
  cbn [snd] in Hg.
  destruct (competitor_loop jl total 0 (competitors product) _ _ _)
    as [[[rs es]|ex] w3] eqn:L; [|discriminate].
  intros [= <- <- <-].
  apply competitor_loop_spec in L
    as (rs' & es' & t & -> & -> & Hm & Hf & Ht & Hs).
  repeat split.
  - simpl. f_equal. exact Hm.
  - cbn [app]. constructor; [|exact Hf].
    split; [reflexivity|]. eapply fetch_price_outcome, F.
  - exists (g ++ EvProgress (int_div 1 total) :: t)%list.
    split; [|now constructor].
    cbn [log trace]. rewrite Ht. cbn [log trace]. rewrite Hg.
    subst w0. cbn [log trace].
    rewrite <- ?app_assoc. cbn [app]. rewrite <- ?app_assoc. reflexivity.
Qed.

End CompareFacts.

(** ** The analysis *)

Lemma str_app_assoc (a b c : string) : (a ++ b) ++ c = a ++ (b ++ c).
Proof. induction a as [|x r IH]; simpl; [reflexivity|]. now rewrite IH. Qed.

(** The three cases of the comparison of the own price with one
    competitor price, as the code tests them on the difference and as the
    specification words them on the prices. *)
Lemma compare_cases (own cp : Q) :
  (Qlt_bool 0 (own - cp) = true /\ Qlt_bool own cp = false
   /\ Qeq_bool own cp = false /\ Qle_bool own cp = false /\ (cp < own)%Q)
  \/ (Qlt_bool 0 (own - cp) = false /\ Qlt_bool (own - cp) 0 = true
      /\ Qlt_bool own cp = true /\ Qeq_bool own cp = false
      /\ Qle_bool own cp = true /\ (own < cp)%Q)
  \/ (Qlt_bool 0 (own - cp) = false /\ Qlt_bool (own - cp) 0 = false
      /\ Qlt_bool own cp = false /\ Qeq_bool own cp = true
      /\ Qle_bool own cp = true /\ (own == cp)%Q).
Proof.
  assert (Hf : forall a b, ~ (a < b)%Q -> Qlt_bool a b = false).
  { intros a b H. destruct (Qlt_bool a b) eqn:E; [|reflexivity].
    apply Qlt_bool_iff in E. contradiction. }
  assert (Hef : forall a b, ~ (a == b)%Q -> Qeq_bool a b = false).
  { intros a b H. destruct (Qeq_bool a b) eqn:E; [|reflexivity].
    apply Qeq_bool_iff in E. contradiction. }
  destruct (Q_dec own cp) as [[Hlt|Hgt]|Heq].
  - right; left. repeat split.
    + apply Hf. lra.
    + apply Qlt_bool_iff. lra.
    + now apply Qlt_bool_iff.
    + apply Hef. lra.
    + apply Qle_bool_iff. lra.
    + exact Hlt.
  - left. repeat split.
    + apply Qlt_bool_iff. lra.
    + apply Hf. lra.
    + apply Hef. lra.
    + apply Qle_bool_false_iff. exact Hgt.
    + exact Hgt.
  - right; right. repeat split.
    + apply Hf. lra.
    + apply Hf. lra.
    + apply Hf. lra.
    + now apply Qeq_bool_iff.
    + apply Qle_bool_iff. lra.
    + exact Heq.
Qed.

(** The loop of [analyze_results] writes one line per competitor and
    counts the competitors the own price undercuts and those it equals. *)
Lemma analysis_loop_spec (own : Q) (errors : error_list)
      (comps : price_list) :
  forall (i : nat) (analysis : string) (c e : nat),
    i + List.length comps < List.length errors ->
    Forall (fun p => ~ (p == 0)%Q) (valid_prices comps) ->
    analysis_loop own errors i comps analysis c e
    = Return (analysis ++ competitor_lines own errors i comps,
              c + cheaper_of own (valid_prices comps),
              e + equal_of own (valid_prices comps)).
Proof.
  unfold cheaper_of, equal_of.
  induction comps as [|[u [cp|]] rest IH]; intros i analysis c e Hlen Hnz.
  - simpl. now rewrite append_empty_r, !Nat.add_0_r.
  - cbn [valid_prices] in *. inversion Hnz as [|? ? Hcp Hrest]; subst.
    cbn [analysis_loop competitor_lines List.length] in *.
    destruct (Qeq_bool cp 0) eqn:Ez.
    { apply Qeq_bool_iff in Ez. contradiction. }
    unfold classify_spec, comparison_text.
    cbn [filter].
    destruct (compare_cases own cp)
      as [(H1 & H2 & H3 & _)|[(H1 & H2 & H3 & H4 & _)|(H1 & H2 & H3 & H4 & _)]].
    + rewrite H1, H2, H3. rewrite IH by (assumption || lia).
      rewrite !str_app_assoc. reflexivity.
    + rewrite H1, H2, H3, H4. rewrite IH by (assumption || lia).
      rewrite !str_app_assoc. cbn [List.length].
      do 3 f_equal. lia.
    + rewrite H1, H2, H3, H4. rewrite IH by (assumption || lia).
      rewrite !str_app_assoc. cbn [List.length].
      do 2 f_equal. lia.
  - cbn [valid_prices analysis_loop competitor_lines List.length] in *.
    destruct (nth_error errors (i + 1)) as [[x ce]|] eqn:En.
    + rewrite IH by (assumption || lia).
      rewrite !str_app_assoc. reflexivity.
    + apply nth_error_None in En. lia.
Qed.

Lemma valid_count (comps : price_list) :
  List.length (filter has_price comps) = List.length (valid_prices comps).
Proof.
  induction comps as [|[u [p|]] r IH]; simpl; [reflexivity| |exact IH].
  now rewrite IH.
Qed.

Lemma filter_length_le {A} (f : A -> bool) (l : list A) :
  List.length (filter f l) <= List.length l.
Proof.
  induction l as [|x r IH]; simpl; [lia|]. destruct (f x); simpl; lia.
Qed.

Lemma filter_all {A} (f : A -> bool) (l : list A) :
  (List.length (filter f l) =? List.length l)%nat = forallb f l.
Proof.
  induction l as [|x r IH]; simpl; [reflexivity|].
  pose proof (filter_length_le f r).
  destruct (f x); simpl; [exact IH|].
  apply Nat.eqb_neq. lia.
Qed.

Lemma filter_some {A} (f : A -> bool) (l : list A) :
  (0 <? List.length (filter f l))%nat = existsb f l.
Proof.
  induction l as [|x r IH]; simpl; [reflexivity|].
  destruct (f x); simpl; [reflexivity|exact IH].
Qed.

Lemma cheaper_plus_equal (own : Q) (valid : list Q) :
  cheaper_of own valid + equal_of own valid
  = List.length (filter (fun c => Qle_bool own c) valid).
Proof.
  unfold cheaper_of, equal_of.
  induction valid as [|cp r IH]; simpl; [reflexivity|].
  destruct (compare_cases own cp)
    as [(_ & H2 & H3 & H4 & _)|[(_ & _ & H2 & H3 & H4 & _)
                               |(_ & _ & H2 & H3 & H4 & _)]];
    rewrite H2, H3, H4; simpl; lia.
Qed.

(** The closing chain over the counters is the aggregate of the
    specification. *)
Lemma summary_line_spec (own : Q) (valid : list Q) :
  summary_line (cheaper_of own valid) (equal_of own valid)
               (List.length valid)
  = aggregate_text (aggregate_spec own valid).
Proof.
  unfold summary_line, aggregate_spec.
  destruct valid as [|v0 r] eqn:Ev; [reflexivity|]. rewrite <- Ev.
  replace (0 <? List.length valid)%nat with true
    by (subst valid; reflexivity).
  rewrite cheaper_plus_equal. unfold cheaper_of.
  rewrite !filter_all, filter_some.
  destruct (forallb _ valid); [reflexivity|].
  destruct (forallb _ valid); [reflexivity|].
  destruct (existsb _ valid); reflexivity.
Qed.

Lemma forallb_lt (own : Q) (valid : list Q) :
  forallb (fun c => Qlt_bool own c) valid = true
  <-> Forall (fun c => (own < c)%Q) valid.
Proof.
  rewrite forallb_forall, Forall_forall.
  split; intros H x Hx; apply Qlt_bool_iff, H, Hx.
Qed.

Lemma forallb_le (own : Q) (valid : list Q) :
  forallb (fun c => Qle_bool own c) valid = true
  <-> Forall (fun c => (own <= c)%Q) valid.
Proof.
  rewrite forallb_forall, Forall_forall.
  split; intros H x Hx; apply Qle_bool_iff, H, Hx.
Qed.

Lemma existsb_lt (own : Q) (valid : list Q) :
  existsb (fun c => Qlt_bool own c) valid = true
  <-> Exists (fun c => (own < c)%Q) valid.
Proof.
  rewrite existsb_exists, Exists_exists.
  split; intros (x & Hx & H); exists x; (split; [exact Hx|]);
    apply Qlt_bool_iff, H.
Qed.

Lemma classify_spec_cases (own c : Q) :
  (classify_spec own c = Cheaper <-> (own < c)%Q)
  /\ (classify_spec own c = Equal <-> (own == c)%Q)
  /\ (classify_spec own c = MoreExpensive <-> (c < own)%Q).
Proof.
  unfold classify_spec.
  destruct (compare_cases own c)
    as [(H1 & _ & _ & _ & H)|[(H1 & H2 & _ & _ & _ & H)
                             |(H1 & H2 & _ & _ & _ & H)]];
    rewrite H1; try rewrite H2;
    repeat split; intros; try discriminate; try reflexivity;
    try assumption; exfalso; lra.
Qed.

(** What each aggregate means for the prices. *)
Lemma aggregate_spec_meaning (own : Q) (valid : list Q) :
  (aggregate_spec own valid = UnableToCompare <-> valid = [])
  /\ (aggregate_spec own valid = LowestPrice <->
      valid <> [] /\ Forall (fun c => (own < c)%Q) valid)
  /\ (aggregate_spec own valid = SameOrLowerThanAll <->
      valid <> [] /\ ~ Forall (fun c => (own < c)%Q) valid
      /\ Forall (fun c => (own <= c)%Q) valid)
  /\ (forall k n, aggregate_spec own valid = CheaperThan k n <->
      valid <> [] /\ ~ Forall (fun c => (own <= c)%Q) valid
      /\ Exists (fun c => (own < c)%Q) valid
      /\ k = cheaper_of own valid /\ n = List.length valid)
  /\ (aggregate_spec own valid = HigherThanAll <->
      valid <> [] /\ ~ Forall (fun c => (own <= c)%Q) valid
      /\ ~ Exists (fun c => (own < c)%Q) valid).
Proof.
  destruct valid as [|v0 r] eqn:Ev.
  { cbn. repeat split; intros; try discriminate; try tauto;
      try (destruct H; congruence). }
  rewrite <- Ev.
  assert (Hne : valid <> []) by (subst valid; discriminate).
  assert (Hlt_le : Forall (fun c => (own < c)%Q) valid ->
                   Forall (fun c => (own <= c)%Q) valid).
  { apply Forall_impl. intros a. apply Qlt_le_weak. }
  assert (Hspec : aggregate_spec own valid
                  = if forallb (fun c => Qlt_bool own c) valid
                    then LowestPrice
                    else if forallb (fun c => Qle_bool own c) valid
                         then SameOrLowerThanAll
                         else if existsb (fun c => Qlt_bool own c) valid
                              then CheaperThan (cheaper_of own valid)
                                               (List.length valid)
                              else HigherThanAll).
  { subst valid. reflexivity. }
  rewrite Hspec. clear Hspec Ev.
  pose proof (forallb_lt own valid) as A.
  pose proof (forallb_le own valid) as B.
  pose proof (existsb_lt own valid) as C.
  destruct (forallb (fun c => Qlt_bool own c) valid);
    [|destruct (forallb (fun c => Qle_bool own c) valid);
      [|destruct (existsb (fun c => Qlt_bool own c) valid)]].
  all: repeat split; try discriminate; try congruence; try tauto.
  all: try (intros [= <- <-]; reflexivity).
  all: try (intros (_ & _ & _ & -> & ->); reflexivity).
  all: try (intros; exfalso; intuition congruence).
  all: intros HF; (apply A in HF || apply B in HF || apply C in HF);
    discriminate.
Qed.

(** With the own price present, the report is the header, the lines of
    the competitors and the sentence of the aggregate. *)
Lemma analyze_results_report
      (product : Product) (own_url err_url : string) (own : Q)
      (own_error : option string) (comps : price_list) (errs : error_list) :
  List.length errs = List.length comps ->
  Forall (fun p => ~ (p == 0)%Q) (valid_prices comps) ->
  analyze_results product ((own_url, Some own) :: comps)
                  ((err_url, own_error) :: errs)
  = Return (report_header product own
            ++ competitor_lines own ((err_url, own_error) :: errs) 0 comps
            ++ aggregate_text (aggregate_spec own (valid_prices comps))).
Proof.
  intros Hlen Hnz.
  unfold analyze_results. cbv beta iota.
  rewrite analysis_loop_spec by (try assumption; cbn [List.length]; lia).
  unfold bindR. cbv beta iota zeta. cbn [Nat.add].
  rewrite valid_count, summary_line_spec.
  unfold report_header. rewrite !str_app_assoc. reflexivity.
Qed.

(** C2.  When the own price is present, the report consists of the
    header, one line per competitor carrying its classification, and the
    sentence of the aggregate over the competitors with a valid price:
    "lowest price" iff own is cheaper than every one of them, else "same
    or lower than all" iff own is at most every one of them, else
    "cheaper than K of N" iff own is cheaper than at least one, else
    "higher than all", and "unable to compare" iff there is none.  Own
    price 10.00 against 12.00, 10.00, 9.00 is classified cheaper, equal,
    more expensive, with aggregate "cheaper than 1 of 3". *)
Theorem aggregate_classification
        (product : Product) (own_url err_url : string) (own : Q)
        (own_error : option string) (comps : price_list) (errs : error_list)
        (Hlen : List.length errs = List.length comps)
        (Hnz : Forall (fun p => ~ (p == 0)%Q) (valid_prices comps)) :
  let valid := valid_prices comps in
  let errors := (err_url, own_error) :: errs in
  analyze_results product ((own_url, Some own) :: comps) errors
  = Return (report_header product own
            ++ competitor_lines own errors 0 comps
            ++ aggregate_text (aggregate_spec own valid))
  /\ (aggregate_spec own valid = UnableToCompare <-> valid = [])
  /\ (aggregate_spec own valid = LowestPrice <->
      valid <> [] /\ Forall (fun c => (own < c)%Q) valid)
  /\ (aggregate_spec own valid = SameOrLowerThanAll <->
      valid <> [] /\ ~ Forall (fun c => (own < c)%Q) valid
      /\ Forall (fun c => (own <= c)%Q) valid)
  /\ (forall k n, aggregate_spec own valid = CheaperThan k n <->
      valid <> [] /\ ~ Forall (fun c => (own <= c)%Q) valid
      /\ Exists (fun c => (own < c)%Q) valid
      /\ k = cheaper_of own valid /\ n = List.length valid)
  /\ (aggregate_spec own valid = HigherThanAll <->
      valid <> [] /\ ~ Forall (fun c => (own <= c)%Q) valid
      /\ ~ Exists (fun c => (own < c)%Q) valid)
  /\ map (classify_spec 10) [12%Q; 10%Q; 9%Q] = [Cheaper; Equal; MoreExpensive]
  /\ aggregate_spec 10 [12%Q; 10%Q; 9%Q] = CheaperThan 1 3.
Proof.
  intros valid errors.
  destruct (aggregate_spec_meaning own valid) as (M1 & M2 & M3 & M4 & M5).
  split; [|split; [|split; [|split; [|split; [|split; [|split]]]]]];
    try assumption; try reflexivity.
  now apply analyze_results_report.
Qed.

(** The example of C2 as a run of [analyze_results]. *)
Lemma aggregate_classification_witness :
  analyze_results
    (mkProduct "https://own.example/p"
               ["https://a.example/p"; "https://b.example/p";
                "https://c.example/p"] 0)
    [("https://own.example/p", Some 10%Q); ("https://a.example/p", Some 12%Q);
     ("https://b.example/p", Some 10%Q); ("https://c.example/p", Some 9%Q)]
    [("https://own.example/p", None); ("https://a.example/p", None);
     ("https://b.example/p", None); ("https://c.example/p", None)]
  = Return
      ("**Your product (https://own.example/p)**" ++ nl ++ nl
       ++ "Your price: €10.00" ++ nl ++ nl
       ++ "Competitor 1: :green[€12.00 (You are 16.67% cheaper)]" ++ nl
       ++ "Competitor 2: :orange[€10.00 (Same price)]" ++ nl
       ++ "Competitor 3: :red[€9.00 (You are 11.11% more expensive)]" ++ nl
       ++ nl ++ ":yellow[You are cheaper than 1 out of 3 competitors.]").
Proof.
  refine (proj1 (aggregate_classification _ _ _ 10%Q _
                   [("https://a.example/p", Some 12%Q);
                    ("https://b.example/p", Some 10%Q);
                    ("https://c.example/p", Some 9%Q)]
                   [("https://a.example/p", None);
                    ("https://b.example/p", None);
                    ("https://c.example/p", None)] _ _)).
  - reflexivity.
  - repeat constructor; intros H; discriminate H.
Defined.

(** ** Safety of the analysis *)

Lemma entries_valid_prices (rs : price_list) (es : error_list) :
  Forall2 entry_ok rs es ->
  Forall (fun c => (min_price <= c)%Q /\ ~ (c == 0)%Q) (valid_prices rs).
Proof.
  induction 1 as [|[u [p|]] [u' e] rs es [_ Hwf] _ IH]; cbn [valid_prices].
  - constructor.
  - constructor; [|exact IH].
    destruct Hwf as [(v & [= -> _] & Hv)|(m & [=])].
    split; [exact Hv|]. now apply min_price_pos.
  - exact IH.
Qed.

(** On the lists [compare_prices] returns, [analyze_results] returns a
    report: no index is out of range and no divisor is zero. *)
Lemma analyze_results_returns (product : Product) (rs : price_list)
      (es : error_list) :
  rs <> [] -> Forall2 entry_ok rs es ->
  exists report, analyze_results product rs es = Return report.
Proof.
  intros Hne H. destruct H as [|[u p] [u' e] rs es _ Hrest]; [congruence|].
  destruct p as [own|].
  - eexists. apply analyze_results_report.
    + symmetry. eapply Forall2_length, Hrest.
    + eapply Forall_impl; [|eapply entries_valid_prices, Hrest].
      intros a [_ Ha]. exact Ha.
  - eexists. reflexivity.
Qed.

(** C9.  [extract_price] does not return on every document.  On a page
    whose first price meta element has no content attribute it raises
    [TypeError], whatever [json.loads] does, although the page shows the
    price 19,99 where the heuristic extractor finds it.  What it returns
    is as stated: an amount it returns is at least 1.01, hence neither
    zero nor negative; every price that reaches the analysis through
    [compare_prices] is a nonzero divisor, and the analysis of those
    lists returns a report without a division by zero. *)
Theorem extract_price_raises_without_content (jl : string -> option pyval) :
  (exists msg,
      extract_price jl doc_meta_without_content "https://shop.example/p"
      = Raise (TypeError msg))
  /\ find_price_in_html doc_meta_without_content = Some (1999 # 100)%Q
  /\ (forall soup u v,
         extract_price jl soup u = Return (Some v) ->
         (min_price <= v)%Q /\ (0 < v)%Q)
  /\ (forall product w w' results errors,
         compare_prices jl product w = (Return (results, errors), w') ->
         Forall (fun c => (min_price <= c)%Q /\ ~ (c == 0)%Q)
                (valid_prices results)
         /\ forall product',
             exists report,
               analyze_results product' results errors = Return report).
Proof.
  split; [eexists; reflexivity|].
  split; [reflexivity|].
  split.
  - intros soup u v E.
    pose proof (extract_price_min _ _ _ _ E) as Hv.
    split; [exact Hv|]. now apply min_price_pos.
  - intros product w w' results errors H.
    apply compare_prices_spec in H as (Hm & Hf & _).
    split; [eapply entries_valid_prices, Hf|].
    intros product'. apply analyze_results_returns; [|exact Hf].
    intros ->. discriminate Hm.
Qed.

(** ** The report when the own price is missing *)

Lemma entries_same_urls (rs : price_list) (es : error_list) :
  Forall2 entry_ok rs es -> map fst es = map fst rs.
Proof.
  induction 1 as [|r e rs es [Hu _] _ IH]; simpl; [reflexivity|].
  now rewrite IH, Hu.
Qed.

Section RunFacts.
Variable jl : string -> option pyval.

Lemma competitor_loop_fetched (total : nat) (comps : list string) :
  forall i results errors w rs es w',
    competitor_loop jl total i comps results errors w
    = (Return (rs, es), w') ->
    exists outs,
      fetched jl total (S i) comps w outs w'
      /\ rs = (results ++ combine comps (map fst outs))%list
      /\ es = (errors ++ combine comps (map snd outs))%list.
Proof.
  induction comps as [|u rest IH]; intros i results errors w rs es w'.
  - intros [= <- <- <-]. exists []. rewrite !app_nil_r.
    repeat split. constructor.
  - cbn [competitor_loop].
    destruct (fetch_price jl u w) as [[[p e]|ex] w1] eqn:F; [|discriminate].
    intros H. apply IH in H as (outs & Hf & -> & ->).
    exists ((p, e) :: outs).
    rewrite <- !app_assoc. cbn [app map combine fst snd].
    repeat split.
    econstructor; [exact F|].
    replace (i + 2) with (S (S i)) in Hf by lia. exact Hf.
Qed.

Lemma compare_prices_fetched (product : Product) (w w' : World)
      (results : price_list) (errors : error_list) :
  compare_prices jl product w = (Return (results, errors), w') ->
  exists outs w'',
    fetched jl (List.length (competitors product) + 1) 0
            (url product :: competitors product)
            (log (EvProgress 0) w) outs w''
    /\ w' = log (EvProgress 1) w''
    /\ results = combine (url product :: competitors product) (map fst outs)
    /\ errors = combine (url product :: competitors product) (map snd outs).
Proof.
  unfold compare_prices. cbv zeta.
  destruct (fetch_price jl (url product) _) as [[[p e]|ex] w1] eqn:F;
    [|discriminate].
  destruct (competitor_loop jl _ 0 (competitors product) _ _ _)
    as [[[rs es]|ex] w3] eqn:L; [|discriminate].
  intros [= <- <- <-].
  apply competitor_loop_fetched in L as (outs & Hf & -> & ->).
  exists ((p, e) :: outs), w3.
  repeat split.
  econstructor; [exact F|exact Hf].
Qed.

Lemma fetched_length (total : nat) (us : list string) :
  forall k w outs w',
    fetched jl total k us w outs w' -> List.length outs = List.length us.
Proof.
  induction 1; simpl; congruence.
Qed.

End RunFacts.

Lemma entries_outcomes (us : list string) :
  forall outs : list outcome,
    List.length outs = List.length us ->
    Forall2 entry_ok (combine us (map fst outs)) (combine us (map snd outs)) ->
    Forall well_formed_outcome outs.
Proof.
  induction us as [|u us IH]; intros [|o outs] Hlen Hf;
    try discriminate Hlen; [constructor|].
  cbn [map combine] in Hf. inversion Hf as [|? ? ? ? [_ Ho] Hrest]; subst.
  constructor.
  - cbn [snd] in Ho. now destruct o.
  - apply IH; [simpl in Hlen; lia|exact Hrest].
Qed.

(** C6, as the code has it.  When the own price is missing, the analysis
    text is the statement that the own price could not be fetched,
    followed by the own error, and nothing else: no competitor is
    compared and no competitor error is part of the text.  The errors of
    the fetches are kept in the error list [compare_prices] returns: the
    own URL and every competitor are fetched once, in input order, and
    the two lists pair each URL with the price and with the error that
    its call of [fetch_price] returned, an error text standing exactly
    where the price is missing.  On a run whose own fetch gave no price
    the analysis of the returned lists is the text above, with the error
    of that fetch. *)
Theorem own_failure_report (jl : string -> option pyval) :
  (forall product own_url err_url own_error comps errs,
      analyze_results product ((own_url, None) :: comps)
                      ((err_url, own_error) :: errs)
      = Return ("Unable to fetch price for " ++ url product ++ nl
                ++ "Error: " ++ str_opt own_error))
  /\ (forall product w w' results errors,
         compare_prices jl product w = (Return (results, errors), w') ->
         let urls := url product :: competitors product in
         exists outs w'',
           fetched jl (List.length urls) 0 urls (log (EvProgress 0) w)
                   outs w''
           /\ w' = log (EvProgress 1) w''
           /\ List.length outs = List.length urls
           /\ results = combine urls (map fst outs)
           /\ errors = combine urls (map snd outs)
           /\ map fst errors = urls
           /\ Forall well_formed_outcome outs
           /\ Forall2 entry_ok results errors
           /\ (forall own_error rest,
                  outs = (None, own_error) :: rest ->
                  analyze_results product results errors
                  = Return ("Unable to fetch price for " ++ url product ++ nl
                            ++ "Error: " ++ str_opt own_error))).
Proof.
  split; [reflexivity|].
  intros product w w' results errors H urls.
  pose proof (compare_prices_spec jl _ _ _ _ _ H) as (Hm & Hf & _).
  apply compare_prices_fetched in H as (outs & w'' & Hr & -> & -> & ->).
  exists outs, w''.
  assert (Hlen : List.length outs = List.length urls)
    by (eapply fetched_length, Hr).
  assert (Ht : List.length (competitors product) + 1 = List.length urls)
    by (subst urls; cbn [List.length]; lia).
  rewrite Ht in Hr.
  split; [exact Hr|]. split; [reflexivity|]. split; [exact Hlen|].
  split; [reflexivity|]. split; [reflexivity|].
  split; [now rewrite (entries_same_urls _ _ Hf)|].
  split; [eapply entries_outcomes; [exact Hlen|exact Hf]|].
  split; [exact Hf|].
  intros own_error rest ->. reflexivity.
Qed.

(** C6 as stated fails: the own shop is unreachable, both competitors
    answer 404, and the text of the analysis does not carry the error of
    the first competitor, which the error list holds. *)
Lemma own_failure_omits_competitor_errors :
  exists results errors report,
    fst (compare_prices no_json own_and_two (world_of net_own_down))
    = Return (results, errors)
    /\ In ("https://a.example/p",
           Some "Error fetching URL: 404 Client Error: Not Found for url: https://a.example/p")
          errors
    /\ analyze_results own_and_two results errors = Return report
    /\ report = "Unable to fetch price for https://own.example/p" ++ nl
                ++ "Error: Unexpected error: Connection refused"
    /\ str_contains report "404" = false.
Proof.
  eexists _, _, _.
  split; [vm_compute; reflexivity|].
  split; [right; left; reflexivity|].
  split; [vm_compute; reflexivity|].
  split; vm_compute; reflexivity.
Qed.

(** ** The progress values *)

Lemma progress_values_app (a b : list event) :
  progress_values (a ++ b) = (progress_values a ++ progress_values b)%list.
Proof.
  induction a as [|[q|v] r IH]; simpl; [reflexivity|exact IH|].
  now rewrite IH.
Qed.

Lemma fetch_events_silent (u : string) (g : list event) :
  fetch_events u g -> progress_values g = [].
Proof. intros [->|(ua & _ & ->)]; reflexivity. Qed.

Lemma url_segments_progress (total : nat) (k : nat) (us : list string)
      (t : list event) :
  url_segments total k us t ->
  progress_values t
  = map (fun j => int_div j total) (seq (S k) (List.length us)).
Proof.
  induction 1 as [|k u us g t Hg _ IH]; [reflexivity|].
  rewrite progress_values_app, (fetch_events_silent _ _ Hg).
  cbn [app progress_values List.length seq map]. now rewrite IH.
Qed.

Lemma Zpos_of_nat (t : nat) : t <> 0 -> Zpos (Pos.of_nat t) = Z.of_nat t.
Proof.
  intros H. rewrite <- positive_nat_Z, Nat2Pos.id by exact H. reflexivity.
Qed.

Lemma int_div_range (k total : nat) :
  k <= total -> total <> 0 ->
  (0 <= int_div k total)%Q /\ (int_div k total <= 1)%Q.
Proof.
  intros Hk Ht. unfold int_div, Qle. cbn [Qnum Qden].
  rewrite Zpos_of_nat by exact Ht. lia.
Qed.

Lemma int_div_step (k total : nat) :
  (int_div k total <= int_div (S k) total)%Q.
Proof. unfold int_div, Qle. cbn [Qnum Qden]. nia. Qed.

Lemma fractions_nondecreasing (total m : nat) :
  forall a, a + m <= total + 1 -> total <> 0 ->
    nondecreasing (map (fun j => int_div j total) (seq a m) ++ [1%Q]).
Proof.
  induction m as [|m IH]; intros a Ha Ht; [exact I|].
  cbn [seq map app].
  destruct m as [|m'].
  - cbn [seq map app nondecreasing]. split; [|exact I].
    apply int_div_range; [lia|exact Ht].
  - cbn [seq map app nondecreasing].
    split; [apply int_div_step|].
    apply (IH (S a)); [lia|exact Ht].
Qed.

Lemma fractions_in_range (total m : nat) :
  forall a, a + m <= total + 1 -> total <> 0 ->
    Forall (fun v => (0 <= v)%Q /\ (v <= 1)%Q)
           (map (fun j => int_div j total) (seq a m)).
Proof.
  induction m as [|m IH]; intros a Ha Ht; cbn [seq map]; constructor.
  - apply int_div_range; [lia|exact Ht].
  - apply IH; [lia|exact Ht].
Qed.

Lemma nondecreasing_cons (a : Q) (l : list Q) :
  Forall (fun v => (a <= v)%Q) l -> nondecreasing l -> nondecreasing (a :: l).
Proof.
  destruct l as [|b r]; intros HF H; [exact I|].
  split; [now inversion HF|exact H].
Qed.

(** C10, as the code has it.  A run of [compare_prices] that returns
    emits the value 0 before the first fetch, then one value after each
    completed URL, [k / (N + 1)] after the [k]-th, the own URL first and
    the competitors in input order, and a final 1; these values lie in
    [0, 1] and never decrease. *)
Theorem progress_sequence
        (jl : string -> option pyval) (product : Product) (w w' : World)
        (r : price_list * error_list)
        (Hrun : compare_prices jl product w = (Return r, w')) :
  let n := List.length (competitors product) in
  exists t,
    let emitted := (EvProgress 0 :: t ++ [EvProgress 1])%list in
    trace w' = (trace w ++ emitted)%list
    /\ url_segments (n + 1) 0 (url product :: competitors product) t
    /\ progress_values emitted
       = (0%Q :: map (fun k => int_div k (n + 1)) (seq 1 (n + 1))
            ++ [1%Q])%list
    /\ Forall (fun v => (0 <= v)%Q /\ (v <= 1)%Q) (progress_values emitted)
    /\ nondecreasing (progress_values emitted).
Proof.
  intros n. destruct r as [results errors].
  apply compare_prices_spec in Hrun as (_ & _ & t & Ht & Hs).
  fold n in Hs. exists t. cbv zeta.
  assert (Hv : progress_values (EvProgress 0 :: t ++ [EvProgress 1])
               = (0%Q :: map (fun k => int_div k (n + 1)) (seq 1 (n + 1))
                    ++ [1%Q])%list).
  { cbn [progress_values]. rewrite progress_values_app.
    rewrite (url_segments_progress _ _ _ _ Hs).
    cbn [List.length progress_values]. fold n.
    replace (S n) with (n + 1) by lia. reflexivity. }
  split; [exact Ht|]. split; [exact Hs|]. split; [exact Hv|].
  rewrite Hv. split.
  - constructor; [split; lra|].
    apply Forall_app. split.
    + apply fractions_in_range; lia.
    + constructor; [split; lra|constructor].
  - apply nondecreasing_cons.
    + apply Forall_app. split.
      * eapply Forall_impl; [|apply (fractions_in_range (n + 1) (n + 1) 1); lia].
        intros a [Ha _]. exact Ha.
      * constructor; [lra|constructor].
    + apply fractions_nondecreasing; lia.
Qed.

(** A run over the own URL and two competitors, all answered. *)
Lemma progress_sequence_witness :
  exists t,
    trace (snd (compare_prices no_json own_and_two (world_of net_all_ok)))
    = (EvProgress 0 :: t ++ [EvProgress 1])%list
    /\ progress_values (EvProgress 0 :: t ++ [EvProgress 1])
       = [0%Q; (1 # 3)%Q; (2 # 3)%Q; (3 # 3)%Q; 1%Q].
Proof.
  destruct (progress_sequence no_json own_and_two (world_of net_all_ok)
              (snd (compare_prices no_json own_and_two (world_of net_all_ok)))
              ([("https://own.example/p", Some (25 # 2)%Q);
                ("https://a.example/p", Some (25 # 2)%Q);
                ("https://b.example/p", Some (25 # 2)%Q)],
               [("https://own.example/p", None);
                ("https://a.example/p", None);
                ("https://b.example/p", None)])
              eq_refl) as (t & Ht & _ & Hv & _).
  exists t. split; [exact Ht|exact Hv].
Defined.

(** C10 as stated fails: with the own URL alone, three values are
    emitted for one completed URL, the first of them before any
    request. *)
Lemma progress_starts_before_first_fetch :
  trace (snd (compare_prices no_json own_only (world_of net_all_ok)))
  = [EvProgress 0;
     EvGet (mkRequest "https://own.example/p" baseline_headers 10);
     EvProgress 1; EvProgress 1]
  /\ progress_values
       (trace (snd (compare_prices no_json own_only (world_of net_all_ok))))
     = [0%Q; 1%Q; 1%Q]
  /\ List.length (url own_only :: competitors own_only) = 1.
Proof. repeat split; vm_compute; reflexivity. Qed.

(** ** The cascade *)

(** A [twitter:data1] meta element decides the result alone: its
    normalized content is returned, whatever else the document holds. *)
Lemma twitter_meta_decides (jl : string -> option pyval) (soup m : node)
      (u s : string) :
  find (by_name_attr "meta" "name" "twitter:data1") soup = Some m ->
  tag_get m "content" = PyStr s ->
  extract_price jl soup u = Return (parse_price_str s).
Proof.
  intros Hf Hc. unfold extract_price. cbn [meta_tags meta_loop].
  rewrite Hf, Hc. reflexivity.
Qed.

(** Without a meta element, a microdata element decides the result
    alone: its normalized text is returned, valid or not. *)
Lemma microdata_decides (jl : string -> option pyval) (soup e : node)
      (u : string) :
  meta_loop soup meta_tags = None ->
  find (by_name_attr "span" "itemprop" "price") soup = Some e ->
  extract_price jl soup u = Return (parse_price_str (node_text e)).
Proof.
  intros Hm He. unfold extract_price. rewrite Hm, He. reflexivity.
Qed.

(** The priority example: a valid [twitter:data1] price wins over a
    conflicting element of class [price]. *)
Lemma twitter_meta_wins (jl : string -> option pyval) :
  extract_price jl doc_meta_and_class "https://shop.example/p"
  = Return (Some (1999 # 100)%Q)
  /\ class_name_strategy doc_meta_and_class = Some (499 # 20)%Q.
Proof. split; reflexivity. Qed.

(** When no meta element and no microdata element is present and the
    script is not JSON, the heuristic extractor decides. *)
Lemma json_decode_error_falls_through (jl : string -> option pyval)
      (soup script : node) (u s : string) :
  meta_loop soup meta_tags = None ->
  find (by_name_attr "span" "itemprop" "price") soup = None ->
  find (by_name_attr "script" "type" "application/ld+json") soup
  = Some script ->
  node_string script = Some s ->
  jl s = None ->
  extract_price jl soup u = Return (find_price_in_html soup).
Proof.
  intros Hm Hs Hj Hn Hl. unfold extract_price.
  rewrite Hm, Hs, Hj. unfold json_ld_try, json_loads_py.
  rewrite Hn, Hl. reflexivity.
Qed.

(** C1 fails on the code.  The [twitter:data1] content "n/a" is rejected
    by the normalizer; [extract_price] then returns "not found" at once,
    although the microdata element and the heuristic extractor both
    yield 19.99, the amount the cascade of the specification gives. *)
Theorem rejected_meta_price_stops_cascade (jl : string -> option pyval) :
  extract_price jl doc_meta_malformed "https://shop.example/p" = Return None
  /\ meta_strategy "name" "twitter:data1" doc_meta_malformed = None
  /\ microdata_strategy doc_meta_malformed = Some (1999 # 100)%Q
  /\ find_price_in_html doc_meta_malformed = Some (1999 # 100)%Q
  /\ cascade_spec jl doc_meta_malformed = Some (1999 # 100)%Q.
Proof. repeat split; reflexivity. Qed.

(** C5 fails on the code.  The first valid amount in the fixed order is
    the [og:price:amount] content 24.95; [extract_price] returns "not
    found" because the sub-threshold [twitter:data1] content comes
    first. *)
Theorem first_valid_amount_not_returned (jl : string -> option pyval) :
  extract_price jl doc_meta_below_minimum "https://shop.example/p"
  = Return None
  /\ meta_strategy "name" "twitter:data1" doc_meta_below_minimum = None
  /\ meta_strategy "property" "og:price:amount" doc_meta_below_minimum
     = Some (499 # 20)%Q
  /\ cascade_spec jl doc_meta_below_minimum = Some (499 # 20)%Q.
Proof. repeat split; reflexivity. Qed.

(** C8 fails on the code.  The script holds the JSON text of an empty
    list; taking its first element raises [IndexError], which the handler
    for [JSONDecodeError] does not catch, so [extract_price] raises
    instead of falling through to the heuristic extractor, which finds
    19.99 next to the heading. *)
Theorem unusable_json_ld_raises
        (jl : string -> option pyval)
        (Hjson : jl "[]" = Some (PyList [])) :
  extract_price jl doc_json_ld_empty_list "https://shop.example/p"
  = Raise (IndexError "list index out of range")
  /\ find_price_in_html doc_json_ld_empty_list = Some (1999 # 100)%Q.
Proof.
  split; [|reflexivity].
  unfold extract_price. cbn [meta_tags meta_loop].
  change (find (by_name_attr "meta" "name" "twitter:data1")
               doc_json_ld_empty_list) with (@None node).
  change (find (by_name_attr "meta" "property" "og:price:amount")
               doc_json_ld_empty_list) with (@None node).
  change (find (by_name_attr "meta" "property" "product:price:amount")
               doc_json_ld_empty_list) with (@None node).
  change (find (by_name_attr "span" "itemprop" "price")
               doc_json_ld_empty_list) with (@None node).
  change (find (by_name_attr "script" "type" "application/ld+json")
               doc_json_ld_empty_list)
    with (Some (Tag "script" [("type", "application/ld+json")] [Text "[]"])).
  cbv beta iota. unfold json_ld_try, json_loads_py.
  cbn [node_string]. rewrite Hjson. reflexivity.
Qed.

(** The same page with a parser that knows the text of the empty list. *)
Lemma unusable_json_ld_raises_witness :
  extract_price json_table_empty_list doc_json_ld_empty_list
                "https://shop.example/p"
  = Raise (IndexError "list index out of range")
  /\ find_price_in_html doc_json_ld_empty_list = Some (1999 # 100)%Q.
Proof.
  apply (unusable_json_ld_raises json_table_empty_list). reflexivity.
Defined.

(** An empty script element raises as well, whatever the JSON parser:
    [json.loads] is handed [None]. *)
Lemma empty_json_ld_script_raises (jl : string -> option pyval) :
  extract_price jl doc_json_ld_empty_script "https://shop.example/p"
  = Raise (TypeError
             "the JSON object must be str, bytes or bytearray, not NoneType").
Proof. reflexivity. Qed.

(** ** The retry protocol *)

Section RetryFacts.

Variable jl : string -> option pyval.

Lemma raise_for_status_cases (r : response) :
  (400 <= status_code r < 600 ->
   exists msg, raise_for_status r = Raise (HTTPError (status_code r) msg))
  /\ (~ 400 <= status_code r < 600 -> raise_for_status r = Return tt).
Proof.
  unfold raise_for_status. cbv zeta.
  destruct (400 <=? status_code r)%nat eqn:A;
    destruct (status_code r <? 500)%nat eqn:B;
    destruct (500 <=? status_code r)%nat eqn:C;
    destruct (status_code r <? 600)%nat eqn:D;
    cbn [andb];
    apply Nat.leb_le in A || apply Nat.leb_gt in A;
    apply Nat.ltb_lt in B || apply Nat.ltb_ge in B;
    apply Nat.leb_le in C || apply Nat.leb_gt in C;
    apply Nat.ltb_lt in D || apply Nat.ltb_ge in D;
    split; intros H; try lia; try reflexivity; eexists; reflexivity.
Qed.

(** A transport failure of the first GET is caught and reported. *)
Lemma first_transport_failure_caught (u : string) (w : World)
      (t : transport_error) :
  net w (gets w) (first_request u) = GetRaise t ->
  fetch_price jl u w
  = (Return (None, Some ("Unexpected error: "
                         ++ exn_str (exn_of_transport t))),
     sent (first_request u) w).
Proof.
  intros H. unfold fetch_price, requests_get. cbv beta iota zeta.
  fold (first_request u). rewrite H. destruct t; reflexivity.
Qed.

(** An error status other than 403 fails at once: one GET, no retry. *)
Lemma http_error_not_retried (u : string) (w : World) (r : response) :
  net w (gets w) (first_request u) = GetResponse r ->
  400 <= status_code r < 600 -> status_code r <> 403 ->
  exists msg,
    raise_for_status r = Raise (HTTPError (status_code r) msg)
    /\ fetch_price jl u w
       = (Return (None, Some ("Error fetching URL: " ++ msg)),
          sent (first_request u) w).
Proof.
  intros H Hs Hn.
  destruct (proj1 (raise_for_status_cases r) Hs) as (msg & Hr).
  exists msg. split; [exact Hr|].
  unfold fetch_price, requests_get. cbv beta iota zeta.
  fold (first_request u). rewrite H.
  unfold after_get. cbn [res_of_get bindR]. rewrite Hr. cbn [bindR].
  apply Nat.eqb_neq in Hn. rewrite Hn. reflexivity.
Qed.

(** A first status 403 triggers exactly one retry, with a full header
    set around a random user agent; the retry decides. *)
Lemma blocked_then_retried (u : string) (w : World) (r : response) :
  net w (gets w) (first_request u) = GetResponse r ->
  status_code r = 403 ->
  let q2 := retry_request u w in
  fetch_price jl u w
  = (match after_get jl u (res_of_get (net w (S (gets w)) q2)) with
     | Return out => Return out
     | Raise e =>
         if is_request_exception e
         then Return (None, Some ("Error fetching URL (with bypass): "
                                  ++ exn_str e))
         else Raise e
     end,
     sent q2 (drew (sent (first_request u) w))).
Proof.
  intros H Hs q2.
  destruct (proj1 (raise_for_status_cases r)) as (msg & Hr);
    [rewrite Hs; lia|].
  unfold fetch_price, requests_get. cbv beta iota zeta.
  fold (first_request u). rewrite H.
  unfold after_get at 1. cbn [res_of_get bindR]. rewrite Hr. cbn [bindR].
  rewrite Hs. cbn [Nat.eqb].
  unfold get_random_headers, random_choice. cbv beta iota zeta.
  fold (retry_request u (sent (first_request u) w)).
  change (retry_request u (sent (first_request u) w)) with q2.
  cbn [net drew sent gets].
  destruct (after_get jl u (res_of_get (net w (S (gets w)) q2)));
    [reflexivity|].
  destruct (is_request_exception e); reflexivity.
Qed.

(** A transport failure or an error status of the retry is reported as
    the bypass case. *)
Lemma retry_failure_reported (u : string) (got : get_result) :
  (forall t, got = GetRaise t ->
             after_get jl u (res_of_get got) = Raise (exn_of_transport t)
             /\ is_request_exception (exn_of_transport t) = true)
  /\ (forall r, got = GetResponse r -> 400 <= status_code r < 600 ->
                exists msg,
                  after_get jl u (res_of_get got)
                  = Raise (HTTPError (status_code r) msg)).
Proof.
  split.
  - intros t ->. split; [reflexivity|]. destruct t; reflexivity.
  - intros r -> Hs.
    destruct (proj1 (raise_for_status_cases r) Hs) as (msg & Hr).
    exists msg. unfold after_get. cbn [res_of_get bindR].
    rewrite Hr. reflexivity.
Qed.

End RetryFacts.

(** C3 fails on the code.  The first GET is answered 403 and the single
    retry, sent with the full header set, is answered 200; the page of
    the retry has a price meta element without content, the extraction
    raises [TypeError], and [fetch_price] raises it instead of returning
    a price or "not found". *)
Theorem retry_success_can_raise (jl : string -> option pyval) :
  let u := "https://own.example/p" in
  let w := world_of net_blocked_then_bad_page in
  net w 0 (first_request u) = status_response u 403 "Forbidden"
  /\ net w 1 (retry_request u w) = ok_response u doc_meta_without_content
  /\ requests_of (trace (snd (fetch_price jl u w)))
     = [first_request u; retry_request u w]
  /\ fst (fetch_price jl u w)
     = Raise (TypeError "expected string or bytes-like object").
Proof. repeat split; reflexivity. Qed.

(** C7 fails on the code.  The same page makes the first attempt return
    an error outcome, but on the retry after a 403 the exception leaves
    [fetch_price]; [compare_prices] then raises too, after the two
    requests for the own URL, and no competitor is fetched. *)
Theorem exception_on_retry_aborts_batch (jl : string -> option pyval) :
  fst (fetch_price jl "https://own.example/p" (world_of net_bad_page))
  = Return (None,
            Some "Unexpected error: expected string or bytes-like object")
  /\ fst (compare_prices jl own_and_two (world_of net_blocked_then_bad_page))
     = Raise (TypeError "expected string or bytes-like object")
  /\ map req_url
         (requests_of
            (trace (snd (compare_prices jl own_and_two
                           (world_of net_blocked_then_bad_page)))))
     = ["https://own.example/p"; "https://own.example/p"]
  /\ progress_values
       (trace (snd (compare_prices jl own_and_two
                      (world_of net_blocked_then_bad_page))))
     = [0%Q].
Proof. repeat split; reflexivity. Qed.

(** ** An amount that is returned is the first valid one *)

Lemma dict_contains_get (items : list (string * pyval)) (key : string) :
  existsb (fun kv => String.eqb (fst kv) key) items = true ->
  exists v, dict_get items key = Some v.
Proof.
  induction items as [|[k v] r IH]; simpl; [discriminate|].
  destruct (String.eqb k key); [now eexists|exact IH].
Qed.

Lemma dict_get_contains (items : list (string * pyval)) (key : string) :
  existsb (fun kv => String.eqb (fst kv) key) items = false ->
  dict_get items key = None.
Proof.
  induction items as [|[k v] r IH]; simpl; [reflexivity|].
  destruct (String.eqb k key); [discriminate|exact IH].
Qed.

(** Whenever the statement of step 3 completes, it agrees with the field
    lookup of the specification; it never raises [JSONDecodeError]. *)
Lemma offers_price_of_code (root : pyval) :
  (forall r, offers_price_stmt root = Return r ->
             offers_price root
             = match r with Some (Some v) => Some v | _ => None end)
  /\ (forall m, offers_price_stmt root <> Raise (JSONDecodeError m)).
Proof.
  unfold offers_price, offers_price_stmt.
  destruct root as [| | | s | l | items]; cbn [py_contains bindR];
    try (split; intros; discriminate).
  - destruct (str_contains s "offers"); cbn [py_getitem bindR];
      split; intros; try discriminate.
    now injection H as <-.
  - destruct (existsb _ l); cbn [py_getitem bindR];
      split; intros; try discriminate.
    now injection H as <-.
  - destruct (existsb _ items) eqn:E.
    + destruct (dict_contains_get _ _ E) as (offers & Ho).
      cbn [py_getitem]. rewrite Ho. cbn [bindR].
      destruct offers as [| | | s | l | o]; cbn [py_contains bindR];
        try (split; intros; discriminate).
      * destruct (str_contains s "price"); cbn [py_getitem bindR];
          split; intros; try discriminate.
        now injection H as <-.
      * destruct (existsb _ l); cbn [py_getitem bindR];
          split; intros; try discriminate.
        now injection H as <-.
      * destruct (existsb _ o) eqn:E2.
        -- destruct (dict_contains_get _ _ E2) as (price & Hp).
           cbn [py_getitem]. rewrite Hp. cbn [bindR].
           destruct price; cbn [parse_price bindR];
             split; intros; try discriminate.
           injection H as <-. cbn [normalize_spec].
           match goal with
           | |- context [parse_price_str ?x] => now destruct (parse_price_str x)
           end.
        -- rewrite (dict_get_contains _ _ E2).
           split; intros; try discriminate. now injection H as <-.
    + rewrite (dict_get_contains _ _ E).
      split; intros; try discriminate. now injection H as <-.
Qed.

Lemma json_ld_strategy_of_code (jl : string -> option pyval)
      (soup script : node) :
  find (by_name_attr "script" "type" "application/ld+json") soup
  = Some script ->
  (forall r, json_ld_try jl script = Return r ->
             json_ld_strategy jl soup
             = match r with Some (Some v) => Some v | _ => None end)
  /\ (forall m, json_ld_try jl script = Raise (JSONDecodeError m) ->
                json_ld_strategy jl soup = None).
Proof.
  intros Hf. unfold json_ld_strategy, json_ld_try, json_loads_py.
  rewrite Hf.
  destruct (node_string script) as [s|]; cbn [bindR];
    [|split; intros; discriminate].
  destruct (jl s) as [data|]; cbn [bindR];
    [|split; [discriminate|reflexivity]].
  assert (Hroot : forall root,
             (forall r, offers_price_stmt root = Return r ->
                        offers_price root
                        = match r with Some (Some v) => Some v | _ => None end)
             /\ (forall m, offers_price_stmt root = Raise (JSONDecodeError m) ->
                           offers_price root = None)).
  { intros root. destruct (offers_price_of_code root) as [H1 H2].
    split; [exact H1|]. intros m H. now apply H2 in H. }
  destruct data as [| | | s' | [|d l] | items]; cbn [py_first bindR];
    try apply Hroot.
  split; intros; discriminate.
Qed.

(** Whenever [extract_price] returns an amount, it is the first valid
    amount of the strategies in their fixed order: the result of one
    strategy, all earlier ones giving none. *)
Lemma extract_price_sound (jl : string -> option pyval) (soup : node)
      (u : string) (v : Q) :
  extract_price jl soup u = Return (Some v) ->
  cascade_spec jl soup = Some v.
Proof.
  unfold extract_price, cascade_spec, meta_strategy, microdata_strategy.
  cbn [meta_tags meta_loop].
  assert (Hmeta : forall m, parse_price (tag_get m "content") = Return (Some v)
                            -> normalize_spec (tag_get m "content") = Some v).
  { intros m. destruct (tag_get m "content"); try discriminate.
    cbn [parse_price normalize_spec]. now intros [= H]. }
  assert (Hheur : find_price_in_html soup = Some v ->
                  first_valid [positional_strategy soup;
                               class_name_strategy soup] = Some v).
  { unfold find_price_in_html, positional_strategy, class_name_strategy.
    cbn [first_valid].
    destruct (find_with_siblings (by_name "h1") soup) as [[h f]|];
      [destruct (sibling_loop _)|]; intros H; try exact H;
      now rewrite H. }
  destruct (find (by_name_attr "meta" "name" "twitter:data1") soup) as [m|].
  { intros H. apply Hmeta in H. cbn [first_valid]. now rewrite H. }
  destruct (find (by_name_attr "meta" "property" "og:price:amount") soup)
    as [m|].
  { intros H. apply Hmeta in H. cbn [first_valid]. now rewrite H. }
  destruct (find (by_name_attr "meta" "property" "product:price:amount") soup)
    as [m|].
  { intros H. apply Hmeta in H. cbn [first_valid]. now rewrite H. }
  destruct (find (by_name_attr "span" "itemprop" "price") soup) as [e|].
  { cbn [parse_price]. intros [= H]. cbn [first_valid]. now rewrite H. }
  cbn [first_valid].
  destruct (find (by_name_attr "script" "type" "application/ld+json") soup)
    as [script|] eqn:Es.
  - destruct (json_ld_strategy_of_code jl soup script Es) as [H1 H2].
    destruct (json_ld_try jl script) as [[r|]|e] eqn:Ej.
    + intros [= ->]. now rewrite (H1 _ eq_refl).
    + intros [= H]. rewrite (H1 _ eq_refl). now apply Hheur.
    + destruct e; try discriminate.
      intros [= H]. rewrite (H2 _ eq_refl). now apply Hheur.
  - intros [= H]. unfold json_ld_strategy. rewrite Es. now apply Hheur.
Qed.

(** ** When [fetch_price] raises *)

Lemma parse_price_raises (x : pyval) (e : exn) :
  parse_price x = Raise e -> is_request_exception e = false.
Proof. destruct x; intros [= <-]; reflexivity. Qed.

Lemma py_contains_raises (k : string) (c : pyval) (e : exn) :
  py_contains k c = Raise e -> is_request_exception e = false.
Proof. destruct c; intros [= <-]; reflexivity. Qed.

Lemma py_getitem_raises (c : pyval) (k : string) (e : exn) :
  py_getitem c k = Raise e -> is_request_exception e = false.
Proof.
  destruct c; cbn [py_getitem]; try (intros [= <-]; reflexivity).
  destruct (dict_get items k); intros [= <-]. reflexivity.
Qed.

Ltac raised_by_primitive H :=
  injection H as <-;
  first [ eapply parse_price_raises; eassumption
        | eapply py_contains_raises; eassumption
        | eapply py_getitem_raises; eassumption ].

Lemma offers_price_stmt_raises (data : pyval) (e : exn) :
  offers_price_stmt data = Raise e -> is_request_exception e = false.
Proof.
  unfold offers_price_stmt, bindR. intros H.
  break_match_in H; raised_by_primitive H.
Qed.

Lemma json_ld_try_raises (jl : string -> option pyval) (script : node)
      (e : exn) :
  json_ld_try jl script = Raise e -> is_request_exception e = false.
Proof.
  unfold json_ld_try, json_loads_py.
  destruct (node_string script) as [s|]; cbn [bindR];
    [|intros [= <-]; reflexivity].
  destruct (jl s) as [data|]; cbn [bindR]; [|intros [= <-]; reflexivity].
  destruct data as [| | | | [|d l] |]; cbn [py_first bindR];
    try apply offers_price_stmt_raises.
  intros [= <-]. reflexivity.
Qed.

(** The exceptions [extract_price] raises are never request exceptions. *)
Lemma extract_price_raises (jl : string -> option pyval) (soup : node)
      (u : string) (e : exn) :
  extract_price jl soup u = Raise e -> is_request_exception e = false.
Proof.
  unfold extract_price. cbn [meta_tags meta_loop]. intros H.
  break_match_in H; try (eapply parse_price_raises; eassumption).
  all: try (injection H as <-; eapply json_ld_try_raises; eassumption).
  subst r. break_match_in E; injection E as E;
    eapply parse_price_raises; eassumption.
Qed.

(** [fetch_price] raises in one situation only: the first GET was
    answered 403 and, on the retry, an exception that is not a request
    exception arose after the GET. *)
Lemma fetch_price_raise_cause (jl : string -> option pyval) (u : string)
      (w w' : World) (e : exn) :
  fetch_price jl u w = (Raise e, w') ->
  exists r,
    net w (gets w) (first_request u) = GetResponse r
    /\ status_code r = 403
    /\ after_get jl u (res_of_get (net w (S (gets w)) (retry_request u w)))
       = Raise e
    /\ is_request_exception e = false.
Proof.
  intros H.
  destruct (net w (gets w) (first_request u)) as [r|t] eqn:En.
  2:{ rewrite (first_transport_failure_caught jl u w t En) in H.
      discriminate. }
  exists r. split; [reflexivity|].
  destruct (Nat.eq_dec (status_code r) 403) as [Hs|Hs].
  - split; [exact Hs|].
    rewrite (blocked_then_retried jl u w r En Hs) in H. cbv zeta in H.
    destruct (after_get jl u _) as [o|e2]; [discriminate|].
    destruct (is_request_exception e2) eqn:Er; [discriminate|].
    injection H as <- _. split; [reflexivity|exact Er].
  - exfalso. revert H.
    unfold fetch_price, requests_get. cbv beta iota zeta.
    fold (first_request u). rewrite En.
    unfold after_get. cbn [res_of_get bindR].
    destruct (raise_for_status_cases r) as [Hin Hout].
    destruct (le_lt_dec 400 (status_code r)) as [Ha|Ha];
      [destruct (le_lt_dec 600 (status_code r)) as [Hb|Hb]|].
    + rewrite Hout by lia. cbn [bindR].
      destruct (extract_price jl (text r) u) as [[p|]|e1] eqn:Ex;
        cbn [bindR]; try discriminate.
      apply extract_price_raises in Ex.
      destruct e1; discriminate.
    + destruct Hin as (msg & ->); [lia|]. cbn [bindR].
      apply Nat.eqb_neq in Hs. rewrite Hs. discriminate.
    + rewrite Hout by lia. cbn [bindR].
      destruct (extract_price jl (text r) u) as [[p|]|e1] eqn:Ex;
        cbn [bindR]; try discriminate.
      apply extract_price_raises in Ex.
      destruct e1; discriminate.
Qed.

(* ================================================================== *)
(** * Further properties of the code *)

(** ** [parse_price] *)

Lemma re_sub_non_price_insert (a b : string) (c : ascii) :
  is_price_char c = false ->
  re_sub_non_price (a ++ String c b) = re_sub_non_price (a ++ b).
Proof.
  intros Hc. induction a as [|x r IH]; cbn [append re_sub_non_price].
  - now rewrite Hc.
  - now rewrite IH.
Qed.

(** X1.  A character that is not a digit, a comma or a period has no
    influence on the result of [parse_price], wherever it stands: a
    currency sign, a letter, a blank, and also a minus sign. *)
Theorem parse_price_ignores_other_characters
        (a b : string) (c : ascii) (Hc : is_price_char c = false) :
  parse_price (PyStr (a ++ String c b)) = parse_price (PyStr (a ++ b)).
Proof.
  cbn [parse_price]. unfold parse_price_str.
  now rewrite (re_sub_non_price_insert a b c Hc).
Qed.

(** A minus sign in front of 5,00 is dropped. *)
Lemma parse_price_ignores_other_characters_witness :
  parse_price (PyStr ("" ++ String "-"%char "5,00"))
  = parse_price (PyStr ("" ++ "5,00"))
  /\ parse_price (PyStr "-5,00") = Return (Some 5%Q).
Proof.
  split; [|reflexivity].
  apply (parse_price_ignores_other_characters "" "5,00" "-"%char).
  reflexivity.
Defined.

Lemma separators_become_periods (s : string) :
  count_periods (replace_comma (re_sub_non_price s)) = count_separators s.
Proof.
  induction s as [|c r IH]; [reflexivity|].
  cbn [re_sub_non_price count_separators]. unfold is_price_char.
  destruct (is_digit c) eqn:Ed.
  - destruct (is_digit_facts c Ed) as (_ & Ec & Ep).
    rewrite Ec, Ep. cbn [orb replace_comma count_periods].
    rewrite Ec, Ep, IH. reflexivity.
  - destruct (Ascii.eqb c comma) eqn:Ec.
    + cbn [orb replace_comma count_periods]. rewrite Ec, IH. reflexivity.
    + destruct (Ascii.eqb c period) eqn:Ep; cbn [orb]; [|exact IH].
      cbn [replace_comma count_periods]. rewrite Ec, Ep, IH. reflexivity.
Qed.

Lemma period_not_digits (s : string) :
  1 <= count_periods s -> all_digits s = false.
Proof.
  induction s as [|c r IH]; cbn [count_periods all_digits]; [lia|].
  destruct (Ascii.eqb c period) eqn:Ep.
  - apply Ascii.eqb_eq in Ep. subst c. reflexivity.
  - intros H. rewrite IH by (cbn [Nat.add] in H; exact H).
    apply andb_false_r.
Qed.

Lemma split_period_second (s : string) :
  2 <= count_periods s ->
  exists ip f, split_period s = (ip, Some f) /\ all_digits f = false.
Proof.
  induction s as [|c r IH]; cbn [count_periods split_period]; [lia|].
  destruct (Ascii.eqb c period) eqn:Ep.
  - intros H. exists EmptyString, r. split; [reflexivity|].
    apply period_not_digits. lia.
  - intros H. destruct IH as (ip & f & Hs & Hf); [exact H|].
    rewrite Hs. exists (String c ip), f. now split.
Qed.

(** X2.  A string with two or more separators, commas or periods in any
    mix, is always rejected: a grouped amount such as 1.234,56 is never
    read as a price. *)
Theorem parse_price_two_separators_rejected
        (s : string) (Hs : 2 <= count_separators s) :
  parse_price (PyStr s) = Return None.
Proof.
  cbn [parse_price]. unfold parse_price_str, py_float.
  rewrite <- separators_become_periods in Hs.
  destruct (split_period_second _ Hs) as (ip & f & -> & Hf).
  rewrite Hf, andb_false_r. reflexivity.
Qed.

Lemma parse_price_two_separators_rejected_witness :
  parse_price (PyStr "EUR 1.234,56") = Return None.
Proof.
  apply (parse_price_two_separators_rejected "EUR 1.234,56").
  vm_compute. lia.
Defined.

Lemma replace_comma_before (s : string) :
  replace_comma (re_sub_non_price (replace_comma s))
  = replace_comma (re_sub_non_price s).
Proof.
  induction s as [|c r IH]; [reflexivity|].
  cbn [replace_comma re_sub_non_price].
  destruct (Ascii.eqb c comma) eqn:Ec.
  - apply Ascii.eqb_eq in Ec. subst c.
    change (is_price_char period) with true.
    change (is_price_char comma) with true.
    cbn [replace_comma]. now rewrite IH.
  - destruct (is_price_char c); cbn [replace_comma]; now rewrite ?Ec, IH.
Qed.

Lemma replace_comma_append (a b : string) :
  replace_comma (a ++ b) = replace_comma a ++ replace_comma b.
Proof.
  induction a as [|c r IH]; cbn [append replace_comma]; [reflexivity|].
  now rewrite IH.
Qed.

(** X3.  A comma is read as a period, wherever it stands and however
    many there are: replacing the commas of the text by periods
    beforehand does not change the result of [parse_price], and a text
    with a comma at some place gives the result of the text with a
    period at that place. *)
Theorem parse_price_comma_as_period :
  (forall s : string,
      parse_price (PyStr (replace_comma s)) = parse_price (PyStr s))
  /\ (forall a b : string,
         parse_price (PyStr (a ++ String comma b))
         = parse_price (PyStr (a ++ String period b))).
Proof.
  assert (H : forall s,
             parse_price (PyStr (replace_comma s)) = parse_price (PyStr s)).
  { intros s. cbn [parse_price]. unfold parse_price_str.
    now rewrite replace_comma_before. }
  split; [exact H|].
  intros a b.
  rewrite <- (H (a ++ String comma b)), <- (H (a ++ String period b)).
  rewrite !replace_comma_append. reflexivity.
Qed.

(** ** [extract_price_from_element] *)

Lemma space_not_price_char (c : ascii) :
  is_space c = true -> is_price_char c = false.
Proof.
  destruct c as [[] [] [] [] [] [] [] []]; vm_compute; congruence.
Qed.

Lemma re_sub_lstrip (s : string) :
  re_sub_non_price (lstrip s) = re_sub_non_price s.
Proof.
  induction s as [|c r IH]; [reflexivity|]. cbn [lstrip].
  destruct (is_space c) eqn:E; [|reflexivity].
  cbn [re_sub_non_price]. now rewrite (space_not_price_char c E).
Qed.

Lemma re_sub_rstrip (s : string) :
  re_sub_non_price (rstrip s) = re_sub_non_price s.
Proof.
  induction s as [|c r IH]; [reflexivity|]. cbn [rstrip].
  destruct (rstrip r) as [|x r'] eqn:Er.
  - cbn [re_sub_non_price] in IH. cbn [re_sub_non_price]. rewrite <- IH.
    destruct (is_space c) eqn:E.
    + now rewrite (space_not_price_char c E).
    + reflexivity.
  - change (re_sub_non_price (String c (String x r')))
      with (if is_price_char c
            then String c (re_sub_non_price (String x r'))
            else re_sub_non_price (String x r')).
    cbn [re_sub_non_price] in *. now rewrite IH.
Qed.

(** X4.  The call of [strip] in [extract_price_from_element] changes
    nothing: the amount found in an element is the amount [parse_price]
    finds in its full text. *)
Theorem strip_is_redundant (element : node) :
  extract_price_from_element element = parse_price_str (node_text element).
Proof.
  unfold extract_price_from_element, parse_price_str, strip.
  now rewrite re_sub_rstrip, re_sub_lstrip.
Qed.

(** ** [find_price_in_html] *)

(** An amount [parse_price] returns is never zero, so the test
    [if price:] accepts exactly the results that are not [None]. *)
Lemma truthy_parsed (s : string) :
  truthy (parse_price_str s)
  = match parse_price_str s with Some _ => true | None => false end.
Proof.
  destruct (parse_price_str s) as [v|] eqn:E; [|reflexivity].
  cbn [truthy]. apply parse_price_str_min in E.
  destruct (Qeq_bool v 0) eqn:Ez; [|reflexivity].
  apply Qeq_bool_iff in Ez. apply min_price_pos in E. tauto.
Qed.

Lemma first_valid_app (a b : list (option Q)) :
  first_valid (a ++ b)
  = match first_valid a with Some v => Some v | None => first_valid b end.
Proof.
  induction a as [|[v|] r IH]; cbn [app first_valid]; [reflexivity..|exact IH].
Qed.

Lemma sibling_loop_first_valid (l : list node) :
  sibling_loop l = first_valid (map extract_price_from_element l).
Proof.
  induction l as [|n r IH]; [reflexivity|].
  cbn [sibling_loop map first_valid].
  unfold extract_price_from_element at 1 2 3. rewrite truthy_parsed.
  destruct (parse_price_str _); [reflexivity|exact IH].
Qed.

Lemma class_loop_first_valid (soup : node) (cs : list string) :
  class_loop soup cs = first_valid (map (class_candidate soup) cs).
Proof.
  induction cs as [|c r IH]; [reflexivity|].
  cbn [class_loop map first_valid]. unfold class_candidate at 1.
  destruct (find (by_class c) soup) as [e|]; [|exact IH].
  unfold extract_price_from_element. rewrite truthy_parsed.
  destruct (parse_price_str _); [reflexivity|exact IH].
Qed.

(** X5.  The heuristic extractor returns the first amount found in a
    fixed list of places: the first five tags after the first heading
    among its siblings, then the first element of each price class in
    the order of the class list; it returns nothing when none of these
    places holds an amount.  Of a class only the first element is looked
    at. *)
Theorem find_price_in_html_first_valid (soup : node) :
  find_price_in_html soup = first_valid (heuristic_candidates soup).
Proof.
  unfold find_price_in_html, heuristic_candidates.
  rewrite first_valid_app, <- class_loop_first_valid.
  destruct (find_with_siblings (by_name "h1") soup) as [[h following]|];
    [|reflexivity].
  now rewrite <- sibling_loop_first_valid.
Qed.



(** ** [extract_price] *)

(** X7 is [extract_price_sound] above; here it is applied to the page
    with a valid [twitter:data1] price and a conflicting class price. *)
Lemma extract_price_sound_witness :
  cascade_spec no_json doc_meta_and_class = Some (1999 # 100)%Q.
Proof.
  apply (extract_price_sound no_json doc_meta_and_class
                             "https://shop.example/p").
  reflexivity.
Defined.

Lemma meta_loop_raise (soup : node)
      (tags : list (string * (string * string))) (e : exn) :
  meta_loop soup tags = Some (Raise e) ->
  exists t k v m,
    In (t, (k, v)) tags
    /\ find (by_name_attr t k v) soup = Some m
    /\ tag_get m "content" = PyNone
    /\ e = TypeError "expected string or bytes-like object".
Proof.
  induction tags as [|[t [k v]] r IH]; cbn [meta_loop]; [discriminate|].
  destruct (find (by_name_attr t k v) soup) as [m|] eqn:Ef.
  - intros [= H]. exists t, k, v, m.
    split; [now left|]. split; [exact Ef|].
    unfold tag_get in *. destruct m as [x|n attrs ch].
    + injection H as <-. now split.
    + destruct (attr_get attrs "content"); [discriminate H|].
      injection H as <-. now split.
  - intros H. destruct (IH H) as (t' & k' & v' & m & Hin & Hrest).
    exists t', k', v', m. split; [now right|exact Hrest].
Qed.



Lemma dict_get_some_contains (items : list (string * pyval)) (key : string)
      (v : pyval) :
  dict_get items key = Some v ->
  existsb (fun kv => String.eqb (fst kv) key) items = true.
Proof.
  intros H.
  destruct (existsb (fun kv => String.eqb (fst kv) key) items) eqn:E;
    [reflexivity|].
  rewrite (dict_get_contains _ _ E) in H. discriminate.
Qed.

Lemma dict_get_none_contains (items : list (string * pyval)) (key : string) :
  dict_get items key = None ->
  existsb (fun kv => String.eqb (fst kv) key) items = false.
Proof.
  intros H.
  destruct (existsb (fun kv => String.eqb (fst kv) key) items) eqn:E;
    [|reflexivity].
  destruct (dict_contains_get _ _ E) as (v & Hv). congruence.
Qed.

Lemma offers_price_stmt_object (items : list (string * pyval))
      (fallback : option Q) :
  match offers_price_stmt (PyDict items) with
  | Return (Some r) => Return r
  | Return None => Return fallback
  | Raise (JSONDecodeError _) => Return fallback
  | Raise e => Raise e
  end = json_object_result items fallback.
Proof.
  unfold offers_price_stmt, json_object_result.
  cbn [py_contains bindR py_getitem].
  destruct (dict_get items "offers") as [offers|] eqn:Eo.
  2:{ now rewrite (dict_get_none_contains _ _ Eo). }
  rewrite (dict_get_some_contains _ _ _ Eo). cbn [bindR].
  destruct offers as [| b | q | t | l | o]; cbn [py_contains bindR py_getitem];
    try reflexivity.
  - destruct (str_contains t "price"); reflexivity.
  - destruct (existsb _ l); reflexivity.
  - destruct (dict_get o "price") as [price|] eqn:Ep.
    2:{ now rewrite (dict_get_none_contains _ _ Ep). }
    rewrite (dict_get_some_contains _ _ _ Ep). cbn [bindR].
    destruct price; reflexivity.
Qed.

(** X9.  On a page without price meta and microdata elements whose
    JSON-LD script parses to an object, the result is decided by the
    shape of its [offers] member: a string price is normalized and
    returned, valid or not; a missing [offers] or [price], or an [offers]
    list or string without "price" in it, leaves the result to the
    heuristic extractor; a price that is not a string, such as a JSON
    number, and every other shape raise [TypeError]. *)
Theorem json_ld_object_result
        (jl : string -> option pyval) (soup script : node) (u s : string)
        (items : list (string * pyval))
        (Hm : meta_loop soup meta_tags = None)
        (Hs : find (by_name_attr "span" "itemprop" "price") soup = None)
        (Hj : find (by_name_attr "script" "type" "application/ld+json") soup
              = Some script)
        (Hn : node_string script = Some s)
        (Hl : jl s = Some (PyDict items)) :
  extract_price jl soup u
  = json_object_result items (find_price_in_html soup).
Proof.
  unfold extract_price. rewrite Hm, Hs, Hj.
  unfold json_ld_try, json_loads_py. rewrite Hn, Hl. cbn [bindR].
  apply offers_price_stmt_object.
Qed.

(** A numeric price makes the extraction raise although the heading is
    followed by a price. *)
Lemma json_ld_object_result_witness :
  extract_price json_numeric_price doc_json_ld_product
                "https://shop.example/p"
  = Raise (TypeError "expected string or bytes-like object")
  /\ find_price_in_html doc_json_ld_product = Some (499 # 20)%Q.
Proof.
  split; [|reflexivity].
  exact (json_ld_object_result json_numeric_price doc_json_ld_product
           (Tag "script" [("type", "application/ld+json")] [Text "product"])
           "https://shop.example/p" "product"
           [("name", PyStr "Widget");
            ("offers", PyDict [("priceCurrency", PyStr "EUR");
                               ("price", PyNum (1999 # 100)%Q)])]
           eq_refl eq_refl eq_refl eq_refl eq_refl).
Defined.

(** ** [get_random_headers] and [fetch_price] *)

(** X10.  Whatever the random draw, [get_random_headers] returns the same
    seven header names in the same order, with a User-Agent taken from
    the three of the list and the six other values fixed; it sends no
    request and emits no progress value. *)
Theorem random_headers_shape (w : World) :
  exists ua hs,
    get_random_headers w = (Return hs, drew w)
    /\ In ua user_agents
    /\ map fst hs = ["User-Agent"; "Accept"; "Accept-Language"; "Referer";
                     "DNT"; "Connection"; "Upgrade-Insecure-Requests"]
    /\ attr_get hs "User-Agent" = Some ua
    /\ tl hs = tl (full_headers EmptyString)
    /\ trace (drew w) = trace w /\ gets (drew w) = gets w.
Proof.
  destruct (get_random_headers_spec w) as (ua & Hin & H).
  exists ua, (full_headers ua). rewrite H. repeat split; exact Hin.
Qed.

Section FetchMore.

Variable jl : string -> option pyval.

Lemma after_get_http_error (u : string) (g : get_result) (sc : nat)
      (m : string) :
  after_get jl u (res_of_get g) = Raise (HTTPError sc m) ->
  exists r, g = GetResponse r /\ sc = status_code r
            /\ 400 <= status_code r < 600.
Proof.
  destruct g as [r|t]; cbn [res_of_get].
  2:{ destruct t; discriminate. }
  intros H. exists r. split; [reflexivity|].
  unfold after_get in H. cbn [bindR] in H.
  destruct (le_lt_dec 400 (status_code r)) as [Ha|Ha];
    [destruct (le_lt_dec 600 (status_code r)) as [Hb|Hb]|].
  2:{ destruct (proj1 (raise_for_status_cases r)) as (msg & Hr); [lia|].
      rewrite Hr in H. cbn [bindR] in H. injection H as <- _. lia. }
  all: rewrite (proj2 (raise_for_status_cases r)) in H by lia;
    cbn [bindR] in H;
    destruct (extract_price jl (text r) u) as [[p|]|e] eqn:Ex;
    cbn [bindR] in H; try discriminate H;
    injection H as ->; apply extract_price_raises in Ex; discriminate Ex.
Qed.

(** The world one call of [fetch_price] leaves behind. *)
Lemma fetch_price_world (u : string) (w : World) :
  snd (fetch_price jl u w)
  = if blocked u w
    then sent (retry_request u w) (drew (sent (first_request u) w))
    else sent (first_request u) w.
Proof.
  unfold blocked.
  destruct (net w (gets w) (first_request u)) as [r|t] eqn:En.
  2:{ now rewrite (first_transport_failure_caught jl u w t En). }
  destruct (status_code r =? 403)%nat eqn:Es.
  - apply Nat.eqb_eq in Es.
    now rewrite (blocked_then_retried jl u w r En Es).
  - apply Nat.eqb_neq in Es.
    unfold fetch_price, requests_get. cbv beta iota zeta.
    fold (first_request u).
    destruct (after_get jl u (res_of_get (net w (gets w) (first_request u))))
      as [o|e] eqn:Ea; [reflexivity|].
    destruct e as [m|m|m|m|m|sc m|m|m|m]; try reflexivity.
    apply after_get_http_error in Ea as (r' & Hr' & -> & _).
    rewrite En in Hr'. injection Hr' as <-.
    apply Nat.eqb_neq in Es. now rewrite Es.
Qed.

(** X11.  One call of [fetch_price] sends the baseline request and, exactly
    when that request is answered with status 403, one random draw and
    one further request with the full header set; it changes nothing
    else in the world, and it does so whether it returns or raises. *)
Theorem fetch_price_footprint (u : string) (w : World) :
  snd (fetch_price jl u w)
  = (if blocked u w
     then sent (retry_request u w) (drew (sent (first_request u) w))
     else sent (first_request u) w)
  /\ req_url (retry_request u w) = u
  /\ req_timeout (first_request u) = 10
  /\ req_timeout (retry_request u w) = 10
  /\ req_headers (first_request u) = baseline_headers
  /\ List.length (req_headers (retry_request u w)) = 7.
Proof. split; [apply fetch_price_world|repeat split]. Qed.

(** X12.  Whenever [fetch_price] returns, its outcome is a price of at
    least 1.01 without error text, or no price with an error text of one
    of four forms: the not-found message, or a text that starts with
    "Error fetching URL: ", "Error fetching URL (with bypass): " or
    "Unexpected error: ". *)
Theorem fetch_price_outcome_forms
        (u : string) (w w' : World) (o : outcome)
        (H : fetch_price jl u w = (Return o, w')) :
  (exists v, o = (Some v, None) /\ (min_price <= v)%Q)
  \/ (exists m, o = (None, Some m) /\ fetch_error_text m).
Proof.
  assert (Hok : forall g o1, after_get jl u g = Return o1 ->
                  (exists v, o1 = (Some v, None) /\ (min_price <= v)%Q)
                  \/ (exists m, o1 = (None, Some m) /\ fetch_error_text m)).
  { intros g o1 Hg. destruct (after_get_outcome jl u g o1 Hg) as [Hv| ->].
    - now left.
    - right. eexists. split; [reflexivity|]. now left. }
  revert H. unfold fetch_price, requests_get. cbv beta iota zeta.
  destruct (after_get jl u (res_of_get (net w (gets w) _))) as [o1|e] eqn:E1.
  { intros [= <- _]. eapply Hok, E1. }
  assert (Hunexpected :
            forall x, (Return (None, Some ("Unexpected error: " ++ x)),
                       sent (mkRequest u baseline_headers 10) w)
                      = (Return o, w') ->
                      (exists v, o = (Some v, None) /\ (min_price <= v)%Q)
                      \/ (exists m, o = (None, Some m) /\ fetch_error_text m)).
  { intros x [= <- _]. right. eexists. split; [reflexivity|].
    right; right; right. now eexists. }
  destruct e as [m|m|m|m|m|sc m|m|m|m]; try apply Hunexpected.
  destruct (sc =? 403)%nat.
  - destruct (get_random_headers_spec (sent (mkRequest u baseline_headers 10) w))
      as (ua & _ & ->).
    cbv beta iota zeta.
    match goal with
    | |- context [after_get jl u ?x] =>
        destruct (after_get jl u x) as [o2|e2] eqn:E2
    end.
    + intros [= <- _]. eapply Hok, E2.
    + destruct (is_request_exception e2); [|discriminate].
      intros [= <- _]. right. eexists. split; [reflexivity|].
      right; right; left. now eexists.
  - intros [= <- _]. right. eexists. split; [reflexivity|].
    right; left. now eexists.
Qed.

(** X13.  A response whose status [raise_for_status] accepts, that is
    every status outside 400..599, a 3xx included, is handled like a
    200: one request, and the outcome is the extracted price, the
    not-found message, or "Unexpected error: " with the text of the
    exception the extraction raised. *)
Theorem accepted_status_outcome
        (u : string) (w : World) (r : response)
        (Hr : net w (gets w) (first_request u) = GetResponse r)
        (Hs : ~ 400 <= status_code r < 600) :
  fetch_price jl u w
  = (Return (accepted_outcome (extract_price jl (text r) u)),
     sent (first_request u) w).
Proof.
  unfold fetch_price, requests_get. cbv beta iota zeta.
  fold (first_request u). rewrite Hr.
  unfold after_get. cbn [res_of_get bindR].
  rewrite (proj2 (raise_for_status_cases r) Hs). cbn [bindR].
  destruct (extract_price jl (text r) u) as [[p|]|e] eqn:Ex;
    cbn [bindR accepted_outcome]; try reflexivity.
  apply extract_price_raises in Ex. destruct e; try reflexivity.
  discriminate Ex.
Qed.

(** X14.  A transport failure of the first request, a refused connection
    or a timeout, is reported under the label "Unexpected error", not
    "Error fetching URL", and is not retried. *)
Theorem first_transport_failure_label
        (u : string) (w : World) (t : transport_error)
        (Ht : net w (gets w) (first_request u) = GetRaise t) :
  fetch_price jl u w
  = (Return (None, Some ("Unexpected error: "
                         ++ exn_str (exn_of_transport t))),
     sent (first_request u) w)
  /\ blocked u w = false.
Proof.
  split; [now apply first_transport_failure_caught|].
  unfold blocked. now rewrite Ht.
Qed.

(** X15.  After a first status 403, a retry that fails, by a transport
    failure or by an error status, a second 403 included, gives the
    outcome "Error fetching URL (with bypass): " with the text of the
    failure; no third request follows. *)
Theorem failed_retry_outcome
        (u : string) (w : World) (r : response) (g : get_result)
        (Hr : net w (gets w) (first_request u) = GetResponse r)
        (Hs : status_code r = 403)
        (Hg : net w (S (gets w)) (retry_request u w) = g)
        (Hfail : (exists t, g = GetRaise t)
                 \/ (exists r2, g = GetResponse r2
                                /\ 400 <= status_code r2 < 600)) :
  exists x,
    fetch_price jl u w
    = (Return (None, Some ("Error fetching URL (with bypass): " ++ x)),
       sent (retry_request u w) (drew (sent (first_request u) w))).
Proof.
  rewrite (blocked_then_retried jl u w r Hr Hs). cbv zeta. rewrite Hg.
  destruct (retry_failure_reported jl u g) as [Ht Hh].
  destruct Hfail as [(t & ->)|(r2 & -> & H2)].
  - destruct (Ht t eq_refl) as [-> Hq]. rewrite Hq. now eexists.
  - destruct (Hh r2 eq_refl H2) as (msg & ->). cbn [is_request_exception].
    now eexists.
Qed.

End FetchMore.

(** The own shop refuses the connection. *)
Lemma fetch_price_outcome_forms_witness :
  (exists v, (None, Some "Unexpected error: Connection refused")
             = (Some v, @None string) /\ (min_price <= v)%Q)
  \/ (exists m, (@None Q, Some "Unexpected error: Connection refused")
                = (None, Some m) /\ fetch_error_text m).
Proof.
  exact (fetch_price_outcome_forms no_json "https://own.example/p"
           (world_of net_own_down)
           (snd (fetch_price no_json "https://own.example/p"
                             (world_of net_own_down)))
           (None, Some "Unexpected error: Connection refused") eq_refl).
Defined.

(** A status 304 with an empty page gives the not-found outcome. *)
Lemma accepted_status_outcome_witness :
  fst (fetch_price no_json "https://own.example/p"
                   (world_of net_not_modified))
  = Return (None, Some not_found_msg).
Proof.
  rewrite (accepted_status_outcome no_json "https://own.example/p"
             (world_of net_not_modified)
             (mkResponse 304 "Not Modified" "https://own.example/p"
                         (page [] [])) eq_refl).
  - reflexivity.
  - cbn. lia.
Defined.

Lemma first_transport_failure_label_witness :
  fst (fetch_price no_json "https://own.example/p" (world_of net_own_down))
  = Return (None, Some "Unexpected error: Connection refused").
Proof.
  rewrite (proj1 (first_transport_failure_label no_json
                    "https://own.example/p" (world_of net_own_down)
                    (ConnectionFailed "Connection refused") eq_refl)).
  reflexivity.
Defined.

(** Two consecutive answers 403. *)
Lemma failed_retry_outcome_witness :
  exists x,
    fetch_price no_json "https://own.example/p" (world_of net_always_blocked)
    = (Return (None, Some ("Error fetching URL (with bypass): " ++ x)),
       sent (retry_request "https://own.example/p"
                           (world_of net_always_blocked))
            (drew (sent (first_request "https://own.example/p")
                        (world_of net_always_blocked)))).
Proof.
  apply (failed_retry_outcome no_json "https://own.example/p"
           (world_of net_always_blocked)
           (mkResponse 403 "Forbidden" "https://own.example/p" (page [] []))
           (status_response "https://own.example/p" 403 "Forbidden")
           eq_refl eq_refl eq_refl).
  right. eexists. split; [reflexivity|]. cbn. lia.
Defined.

(** X23 is [http_error_not_retried] above; here it is applied to a
    competitor page that answers 404. *)
Lemma http_error_not_retried_witness :
  exists msg,
    fetch_price no_json "https://a.example/p" (world_of net_own_down)
    = (Return (None, Some ("Error fetching URL: " ++ msg)),
       sent (first_request "https://a.example/p") (world_of net_own_down)).
Proof.
  destruct (http_error_not_retried no_json "https://a.example/p"
              (world_of net_own_down)
              (mkResponse 404 "Not Found" "https://a.example/p" (page [] []))
              eq_refl) as (msg & _ & H).
  - cbn. lia.
  - cbn. lia.
  - exists msg. exact H.
Defined.

(** X22.  [fetch_price] raises in one situation only: the first request
    was answered with status 403 and, after the retry was sent, an
    exception that is not a request exception arose, which is an
    exception of the extraction.  Both requests have been sent by then. *)
Theorem fetch_price_raises_only_on_retry
        (jl : string -> option pyval) (u : string) (w w' : World) (e : exn)
        (H : fetch_price jl u w = (Raise e, w')) :
  blocked u w = true
  /\ w' = sent (retry_request u w) (drew (sent (first_request u) w))
  /\ is_request_exception e = false
  /\ exists r2,
      net w (S (gets w)) (retry_request u w) = GetResponse r2
      /\ ~ 400 <= status_code r2 < 600
      /\ extract_price jl (text r2) u = Raise e.
Proof.
  pose proof (fetch_price_world jl u w) as Hw. rewrite H in Hw. cbn [snd] in Hw.
  destruct (fetch_price_raise_cause jl u w w' e H) as (r & Hr & Hs & Ha & He).
  assert (Hb : blocked u w = true).
  { unfold blocked. rewrite Hr. now apply Nat.eqb_eq. }
  rewrite Hb in Hw. repeat split; try assumption.
  destruct (net w (S (gets w)) (retry_request u w)) as [r2|t] eqn:E2.
  2:{ cbn [res_of_get] in Ha. unfold after_get in Ha. cbn [bindR] in Ha.
      injection Ha as <-. destruct t; discriminate He. }
  exists r2. split; [reflexivity|].
  unfold after_get in Ha. cbn [res_of_get bindR] in Ha.
  destruct (le_lt_dec 400 (status_code r2)) as [Hlo|Hlo];
    [destruct (le_lt_dec 600 (status_code r2)) as [Hhi|Hhi]|].
  2:{ destruct (proj1 (raise_for_status_cases r2)) as (msg & Hm); [lia|].
      rewrite Hm in Ha. cbn [bindR] in Ha. injection Ha as <-.
      discriminate He. }
  all: split; [lia|];
    rewrite (proj2 (raise_for_status_cases r2)) in Ha by lia;
    cbn [bindR] in Ha;
    destruct (extract_price jl (text r2) u) as [[p|]|e2];
    cbn [bindR] in Ha; try discriminate Ha; congruence.
Qed.

(** The first answer is 403 and the page of the retry has a price meta
    element without content. *)
Lemma fetch_price_raises_only_on_retry_witness :
  blocked "https://own.example/p" (world_of net_blocked_then_bad_page) = true
  /\ exists r2,
      net (world_of net_blocked_then_bad_page) 1
          (retry_request "https://own.example/p"
                         (world_of net_blocked_then_bad_page))
      = GetResponse r2
      /\ extract_price no_json (text r2) "https://own.example/p"
         = Raise (TypeError "expected string or bytes-like object").
Proof.
  destruct (fetch_price_raises_only_on_retry no_json "https://own.example/p"
              (world_of net_blocked_then_bad_page)
              (snd (fetch_price no_json "https://own.example/p"
                                (world_of net_blocked_then_bad_page)))
              (TypeError "expected string or bytes-like object") eq_refl)
    as (Hb & _ & _ & r2 & Hr & _ & He).
  split; [exact Hb|]. exists r2. split; [exact Hr|exact He].
Defined.

(** ** [compare_prices] *)

Section CompareMore.

Variable jl : string -> option pyval.

Lemma fetch_price_net (u : string) (w : World) :
  net (snd (fetch_price jl u w)) = net w.
Proof. rewrite fetch_price_world. destruct (blocked u w); reflexivity. Qed.

Lemma never_blocked_net (w w1 : World) :
  net w1 = net w -> never_blocked w -> never_blocked w1.
Proof. unfold never_blocked. intros -> H. exact H. Qed.

Lemma fetch_price_returns_unless_blocked (u : string) (w : World) :
  never_blocked w ->
  exists o, fetch_price jl u w = (Return o, snd (fetch_price jl u w)).
Proof.
  intros Hnb.
  destruct (fetch_price jl u w) as [[o|e] w'] eqn:F; [now exists o|].
  apply fetch_price_raise_cause in F as (r & Hr & Hs & _).
  exfalso. exact (Hnb _ _ _ Hr Hs).
Qed.

Lemma competitor_loop_returns (total : nat) (comps : list string) :
  forall i results errors w,
    never_blocked w ->
    exists res w',
      competitor_loop jl total i comps results errors w = (Return res, w').
Proof.
  induction comps as [|u rest IH]; intros i results errors w Hnb.
  - now eexists _, _.
  - cbn [competitor_loop].
    destruct (fetch_price_returns_unless_blocked u w Hnb) as ([p e] & ->).
    apply IH. eapply never_blocked_net; [|exact Hnb].
    cbn [log net]. apply fetch_price_net.
Qed.

(** X16.  On a network that never answers 403, [compare_prices] returns
    its two lists for every product: no failure of a single URL, whether
    of the transport, of the status or of the extraction, aborts the
    batch. *)
Theorem compare_prices_returns_unless_blocked
        (product : Product) (w : World) (Hnb : never_blocked w) :
  exists results errors w',
    compare_prices jl product w = (Return (results, errors), w').
Proof.
  unfold compare_prices. cbv zeta.
  set (w0 := log (EvProgress 0) w).
  assert (H0 : never_blocked w0) by exact Hnb.
  destruct (fetch_price_returns_unless_blocked (url product) w0 H0)
    as ([p e] & ->).
  match goal with
  | |- context [competitor_loop jl ?t ?i ?c ?r ?e ?w2] =>
      destruct (competitor_loop_returns t c i r e w2)
        as ([rs es] & w3 & ->)
  end.
  - eapply never_blocked_net; [|exact H0].
    cbn [log net]. apply fetch_price_net.
  - now eexists _, _, _.
Qed.

Lemma requests_of_app (a b : list event) :
  requests_of (a ++ b) = (requests_of a ++ requests_of b)%list.
Proof.
  induction a as [|[q|v] r IH]; simpl; [reflexivity| |exact IH].
  now rewrite IH.
Qed.

Lemma fetch_events_requests (u : string) (g : list event) :
  fetch_events u g ->
  exists k, (k = 1 \/ k = 2) /\ map req_url (requests_of g) = repeat u k.
Proof.
  intros [->|(ua & _ & ->)]; [exists 1|exists 2]; split; auto.
Qed.

Lemma url_segments_requests (total k : nat) (us : list string)
      (t : list event) :
  url_segments total k us t ->
  exists ks,
    List.length ks = List.length us
    /\ Forall (fun n => n = 1 \/ n = 2) ks
    /\ map req_url (requests_of t) = visits us ks.
Proof.
  induction 1 as [|k u us g t Hg _ (ks & Hl & Hf & Hv)].
  - exists []. repeat split. constructor.
  - destruct (fetch_events_requests u g Hg) as (n & Hn & Hr).
    exists (n :: ks). split; [cbn; now rewrite Hl|].
    split; [now constructor|].
    rewrite requests_of_app, map_app, Hr. cbn [requests_of].
    unfold visits in *. cbn [combine flat_map fst snd]. now rewrite Hv.
Qed.

Lemma visits_length (us : list string) :
  forall ks,
    List.length ks = List.length us ->
    Forall (fun n => n = 1 \/ n = 2) ks ->
    List.length us <= List.length (visits us ks) <= 2 * List.length us.
Proof.
  unfold visits.
  induction us as [|u r IH]; intros [|k ks] Hl Hf; try discriminate.
  - cbn. lia.
  - inversion Hf as [|? ? Hk Hr]; subst.
    cbn [combine flat_map fst snd List.length].
    rewrite length_app, repeat_length.
    specialize (IH ks ltac:(cbn in Hl; lia) Hr). lia.
Qed.

(** X17.  A run of [compare_prices] that returns has requested the own
    URL and then each competitor URL in input order, each of them once
    or, after a 403, twice in a row, and no other URL: between N+1 and
    2(N+1) requests for N competitors.  A URL listed twice is fetched
    again. *)
Theorem compare_prices_requests
        (product : Product) (w w' : World) (r : price_list * error_list)
        (Hrun : compare_prices jl product w = (Return r, w')) :
  let urls := url product :: competitors product in
  exists ks,
    List.length ks = List.length urls
    /\ Forall (fun n => n = 1 \/ n = 2) ks
    /\ map req_url (requests_of (trace w'))
       = (map req_url (requests_of (trace w)) ++ visits urls ks)%list
    /\ List.length urls <= List.length (visits urls ks)
       <= 2 * List.length urls.
Proof.
  intros urls. destruct r as [results errors].
  apply compare_prices_spec in Hrun as (_ & _ & t & Ht & Hs).
  destruct (url_segments_requests _ _ _ _ Hs) as (ks & Hl & Hf & Hv).
  exists ks. split; [exact Hl|]. split; [exact Hf|].
  split; [|now apply visits_length].
  rewrite Ht, requests_of_app, map_app. cbn [requests_of].
  rewrite requests_of_app. cbn [requests_of].
  rewrite app_nil_r. now rewrite Hv.
Qed.

End CompareMore.

Lemma compare_prices_returns_unless_blocked_witness :
  exists results errors w',
    compare_prices no_json own_and_two (world_of net_own_down)
    = (Return (results, errors), w').
Proof.
  apply (compare_prices_returns_unless_blocked no_json own_and_two
           (world_of net_own_down)).
  intros k q r. cbn [world_of net]. unfold net_own_down, status_response.
  destruct (String.eqb (req_url q) "https://own.example/p");
    [discriminate|].
  intros [= <-]. cbn. discriminate.
Defined.

Lemma compare_prices_requests_witness :
  exists ks,
    List.length ks = 3
    /\ map req_url
           (requests_of
              (trace (snd (compare_prices no_json own_and_two
                             (world_of net_always_blocked)))))
       = visits ["https://own.example/p"; "https://a.example/p";
                 "https://b.example/p"] ks.
Proof.
  destruct (compare_prices_requests no_json own_and_two
              (world_of net_always_blocked)
              (snd (compare_prices no_json own_and_two
                      (world_of net_always_blocked)))
              all_blocked_lists
              eq_refl) as (ks & Hl & _ & Hv & _).
  exists ks. split; [exact Hl|exact Hv].
Defined.

(** ** [analyze_results] *)

Lemma nth_error_rename {A} (f : string -> string) (l : list (string * A))
      (n : nat) :
  nth_error (rename_urls f l) n
  = option_map (fun x => (f (fst x), snd x)) (nth_error l n).
Proof. apply nth_error_map. Qed.

Lemma analysis_loop_rename (f g : string -> string) (own : Q)
      (errors : error_list) (comps : price_list) :
  forall i analysis c e,
    analysis_loop own (rename_urls g errors) i (rename_urls f comps)
                  analysis c e
    = analysis_loop own errors i comps analysis c e.
Proof.
  induction comps as [|[u [cp|]] rest IH]; intros i analysis c e;
    [reflexivity| |].
  - cbn [rename_urls map fst snd analysis_loop].
    fold (rename_urls f rest).
    destruct (Qeq_bool cp 0); [reflexivity|].
    destruct (Qlt_bool 0 (own - cp)); [apply IH|].
    destruct (Qlt_bool (own - cp) 0); apply IH.
  - cbn [rename_urls map fst snd analysis_loop].
    fold (rename_urls f rest). fold (rename_urls g errors).
    rewrite nth_error_rename.
    destruct (nth_error errors (i + 1)) as [[x ce]|]; cbn [option_map];
      [apply IH|reflexivity].
Qed.

Lemma has_price_rename (f : string -> string) (comps : price_list) :
  filter has_price (rename_urls f comps)
  = rename_urls f (filter has_price comps).
Proof.
  induction comps as [|[u [p|]] r IH]; cbn; [reflexivity| |exact IH].
  f_equal. exact IH.
Qed.

(** X18.  The report does not depend on the URLs stored in the two lists:
    the own URL is taken from the product, and the competitors are named
    by their position only, never by their URL. *)
Theorem analyze_results_ignores_urls
        (product : Product) (f g : string -> string)
        (prices : price_list) (errors : error_list) :
  analyze_results product (rename_urls f prices) (rename_urls g errors)
  = analyze_results product prices errors.
Proof.
  destruct prices as [|[u own] comps]; [reflexivity|].
  destruct errors as [|[u' oe] errs]; [reflexivity|].
  unfold analyze_results. cbn [rename_urls map fst snd].
  fold (rename_urls f comps). fold (rename_urls g errs).
  destruct own as [own|]; [|reflexivity].
  change ((g u', oe) :: rename_urls g errs)
    with (rename_urls g ((u', oe) :: errs)).
  rewrite analysis_loop_rename, has_price_rename.
  unfold rename_urls at 1. now rewrite length_map.
Qed.

Lemma analysis_loop_zero (own : Q) (errors : error_list)
      (comps : price_list) :
  forall i analysis c e,
    i + List.length comps < List.length errors ->
    Exists (fun p => (p == 0)%Q) (valid_prices comps) ->
    analysis_loop own errors i comps analysis c e
    = Raise (ZeroDivisionError "float division by zero").
Proof.
  induction comps as [|[u [cp|]] rest IH]; intros i analysis c e Hlen Hz.
  - inversion Hz.
  - cbn [valid_prices] in Hz. cbn [analysis_loop List.length] in *.
    destruct (Qeq_bool cp 0) eqn:Ez; [reflexivity|].
    assert (Hrest : Exists (fun p => (p == 0)%Q) (valid_prices rest)).
    { inversion Hz as [? ? H0|? ? Hr]; subst; [|exact Hr].
      apply Qeq_bool_iff in H0. congruence. }
    destruct (Qlt_bool 0 (own - cp)); [apply IH; [lia|exact Hrest]|].
    destruct (Qlt_bool (own - cp) 0); apply IH; (lia || exact Hrest).
  - cbn [valid_prices] in Hz. cbn [analysis_loop List.length] in *.
    destruct (nth_error errors (i + 1)) as [[x ce]|] eqn:En.
    + apply IH; [lia|exact Hz].
    + apply nth_error_None in En. lia.
Qed.

Lemma zero_or_none (l : list Q) :
  Exists (fun p => (p == 0)%Q) l \/ Forall (fun p => ~ (p == 0)%Q) l.
Proof.
  induction l as [|p r [IH|IH]].
  - right. constructor.
  - left. now right.
  - destruct (Qeq_dec p 0) as [Hp|Hp].
    + left. now left.
    + right. now constructor.
Qed.

(** X19.  With the own price present and an error list as long as the
    price list, [analyze_results] raises [ZeroDivisionError] exactly when
    some competitor price is zero; otherwise it returns a report.  The
    division by the competitor price is not guarded. *)
Theorem analyze_results_zero_price
        (product : Product) (own_url err_url : string) (own : Q)
        (own_error : option string) (comps : price_list) (errs : error_list)
        (Hlen : List.length errs = List.length comps) :
  (Exists (fun p => (p == 0)%Q) (valid_prices comps) ->
   analyze_results product ((own_url, Some own) :: comps)
                   ((err_url, own_error) :: errs)
   = Raise (ZeroDivisionError "float division by zero"))
  /\ (Forall (fun p => ~ (p == 0)%Q) (valid_prices comps) ->
      exists report,
        analyze_results product ((own_url, Some own) :: comps)
                        ((err_url, own_error) :: errs)
        = Return report)
  /\ (Exists (fun p => (p == 0)%Q) (valid_prices comps)
      \/ Forall (fun p => ~ (p == 0)%Q) (valid_prices comps)).
Proof.
  split; [|split; [|apply zero_or_none]].
  - intros Hz. unfold analyze_results. cbv beta iota.
    rewrite analysis_loop_zero; [reflexivity| |exact Hz].
    cbn [List.length]. lia.
  - intros Hnz. eexists. now apply analyze_results_report.
Qed.

Lemma analyze_results_zero_price_witness :
  analyze_results own_only
                  [("https://own.example/p", Some 10%Q);
                   ("https://a.example/p", Some 0%Q)]
                  [("https://own.example/p", None);
                   ("https://a.example/p", None)]
  = Raise (ZeroDivisionError "float division by zero").
Proof.
  apply (proj1 (analyze_results_zero_price own_only
                  "https://own.example/p" "https://own.example/p" 10%Q None
                  [("https://a.example/p", Some 0%Q)]
                  [("https://a.example/p", None)] eq_refl)).
  left. reflexivity.
Defined.

Lemma analysis_loop_priced (own : Q) (errors errors' : error_list)
      (comps : price_list) :
  forallb has_price comps = true ->
  forall i analysis c e,
    analysis_loop own errors i comps analysis c e
    = analysis_loop own errors' i comps analysis c e.
Proof.
  induction comps as [|[u [cp|]] rest IH]; intros Hp i analysis c e;
    [reflexivity| |discriminate Hp].
  cbn [forallb has_price snd andb] in Hp. cbn [analysis_loop].
  destruct (Qeq_bool cp 0); [reflexivity|].
  destruct (Qlt_bool 0 (own - cp)); [now apply IH|].
  destruct (Qlt_bool (own - cp) 0); now apply IH.
Qed.

(** X20.  The error list is read at its first entry for the own error
    and, beyond that, only for competitors without a price: when every
    competitor has a price, the report is the same for every error list
    with the same first entry, a list of that single entry included. *)
Theorem analyze_results_errors_unread
        (product : Product) (own_entry : string * option Q)
        (comps : price_list) (first_error : string * option string)
        (errs errs' : error_list)
        (Hp : forallb has_price comps = true) :
  analyze_results product (own_entry :: comps) (first_error :: errs)
  = analyze_results product (own_entry :: comps) (first_error :: errs').
Proof.
  destruct own_entry as [u [own|]], first_error as [u' oe];
    [|reflexivity].
  unfold analyze_results. cbv beta iota.
  now rewrite (analysis_loop_priced own _ ((u', oe) :: errs') comps Hp).
Qed.

Lemma analyze_results_errors_unread_witness :
  analyze_results own_only
                  [("https://own.example/p", Some 10%Q);
                   ("https://a.example/p", Some 12%Q)]
                  [("https://own.example/p", None);
                   ("https://a.example/p", None)]
  = analyze_results own_only
                    [("https://own.example/p", Some 10%Q);
                     ("https://a.example/p", Some 12%Q)]
                    [("https://own.example/p", None)].
Proof.
  apply (analyze_results_errors_unread own_only
           ("https://own.example/p", Some 10%Q)
           [("https://a.example/p", Some 12%Q)]
           ("https://own.example/p", None)
           [("https://a.example/p", None)] []).
  reflexivity.
Defined.

(** ** Priority among the price meta elements *)

Lemma meta_loop_skip (soup : node)
      (pre post : list (string * (string * string))) :
  Forall (fun x => find (by_name_attr (fst x) (fst (snd x)) (snd (snd x)))
                        soup = None) pre ->
  meta_loop soup (pre ++ post) = meta_loop soup post.
Proof.
  induction 1 as [|[t [k v]] r Hx _ IH]; [reflexivity|].
  simpl in Hx. simpl. rewrite Hx. exact IH.
Qed.

(** X21.  The first price meta element of the list that the page holds
    decides the result alone: when the elements before it in the list
    are absent, its content is normalized and returned, valid or not,
    whatever the later meta elements, the microdata, the JSON-LD script
    and the visible markup say. *)
Theorem first_present_meta_decides
        (jl : string -> option pyval) (soup m : node) (u s : string)
        (pre post : list (string * (string * string)))
        (t k v : string)
        (Htags : meta_tags = (pre ++ (t, (k, v)) :: post)%list)
        (Hpre : Forall (fun x => find (by_name_attr (fst x) (fst (snd x))
                                                    (snd (snd x))) soup
                                 = None) pre)
        (Hm : find (by_name_attr t k v) soup = Some m)
        (Hc : tag_get m "content" = PyStr s) :
  extract_price jl soup u = Return (parse_price_str s).
Proof.
  unfold extract_price. rewrite Htags, (meta_loop_skip soup pre _ Hpre).
  cbn [meta_loop]. rewrite Hm, Hc. reflexivity.
Qed.

(** The sub-threshold [og:price:amount] content of a page that shows
    19,99 in an element of class [price]. *)
Lemma first_present_meta_decides_witness :
  extract_price no_json
    (page [Tag "meta" [("property", "og:price:amount"); ("content", "0")] []]
          [Tag "p" [("class", "price")] [Text "19,99"]])
    "https://shop.example/p"
  = Return None.
Proof.
  apply (first_present_meta_decides no_json _
           (Tag "meta" [("property", "og:price:amount"); ("content", "0")] [])
           "https://shop.example/p" "0"
           [("meta", ("name", "twitter:data1"))]
           [("meta", ("property", "product:price:amount"))]
           "meta" "property" "og:price:amount");
    try reflexivity.
  repeat constructor.
Defined.
